(** * Delhi High Court scraper: extraction pipeline, parsers and mock source

    A shallow embedding of [scraper/delhi_high_court.py].  Python strings
    are lists of characters; the embedding covers ASCII text (one [ascii]
    per code point).  The regular expressions of the program are sequences
    of quantified character classes, matched with the priority order of
    Python's backtracking engine (greedy quantifiers, alternatives left to
    right). *)

From Stdlib Require Import List Arith NArith ZArith Bool Ascii String Lia Zify.
Import ListNotations.

Open Scope string_scope.
Open Scope list_scope.
Open Scope nat_scope.

(** ** Python strings *)

Definition text := list ascii.

Definition txt (s : string) : text := list_ascii_of_string s.
Coercion txt : string >-> text.

Definition in_range (lo hi : nat) (c : ascii) : bool :=
  (lo <=? nat_of_ascii c) && (nat_of_ascii c <=? hi).

(** [str.isspace] on a single ASCII character: TAB..CR, FS..US and the
    space.  The class [\s] of [re] is the same set. *)
Definition isspace (c : ascii) : bool :=
  in_range 9 13 c || in_range 28 31 c || in_range 32 32 c.

(** [\d] *)
Definition isdigit (c : ascii) : bool := in_range 48 57 c.

Definition isupper (c : ascii) : bool := in_range 65 90 c.
Definition islower (c : ascii) : bool := in_range 97 122 c.

Definition lower_char (c : ascii) : ascii :=
  if isupper c then ascii_of_nat (nat_of_ascii c + 32) else c.

Definition upper_char (c : ascii) : ascii :=
  if islower c then ascii_of_nat (nat_of_ascii c - 32) else c.

(** [s.lower()] *)
Definition lower (s : text) : text := map lower_char s.

Definition text_eqb (a b : text) : bool :=
  if list_eq_dec ascii_dec a b then true else false.

Fixpoint startswith (p s : text) : bool :=
  match p, s with
  | [], _ => true
  | _ :: _, [] => false
  | a :: p', b :: s' => Ascii.eqb a b && startswith p' s'
  end.

(** [p in s] for strings *)
Fixpoint contains (p s : text) : bool :=
  startswith p s ||
  match s with
  | [] => false
  | _ :: s' => contains p s'
  end.

Fixpoint lstrip (s : text) : text :=
  match s with
  | c :: s' => if isspace c then lstrip s' else s
  | [] => []
  end.

Definition rstrip (s : text) : text := rev (lstrip (rev s)).

(** [s.strip()] *)
Definition strip (s : text) : text := rstrip (lstrip s).

(** [s.split()]: the maximal runs of non-whitespace characters.  [cur] is
    the run being read, reversed. *)
Fixpoint split_from (cur : text) (s : text) : list text :=
  match s with
  | [] => match cur with [] => [] | _ => [rev cur] end
  | c :: s' =>
      if isspace c
      then match cur with
           | [] => split_from [] s'
           | _ => rev cur :: split_from [] s'
           end
      else split_from (c :: cur) s'
  end.

Definition split (s : text) : list text := split_from [] s.

(** [sep.join(parts)] *)
Fixpoint join (sep : text) (parts : list text) : text :=
  match parts with
  | [] => []
  | [p] => p
  | p :: ps => p ++ sep ++ join sep ps
  end.

(** Truth value of an optional string: [None] and [''] are false. *)
Definition truthy (o : option text) : bool :=
  match o with
  | Some (_ :: _) => true
  | _ => false
  end.

(** [o or default] *)
Definition or_default (o : option text) (d : text) : text :=
  match o with
  | Some (c :: s) => c :: s
  | _ => d
  end.

(** ** Regular expressions *)

Module Re.

Definition cclass := ascii -> bool.

(** The patterns of the program are concatenations of these items. *)
Inductive item :=
| Rep (p : cclass) (lo : nat) (hi : option nat)
    (** a class under a greedy quantifier: [p{lo,hi}], [p+], [p*], [p] *)
| Alt (alts : list (list cclass))
    (** an alternation of fixed-length sequences of classes *)
| Eol
    (** [$]: at the end, or before a newline that ends the string *).

Definition regex := list item.

Definition chr (c : ascii) : cclass := Ascii.eqb c.
Definition one (p : cclass) : item := Rep p 1 (Some 1).
Definition plus (p : cclass) : item := Rep p 1 None.
Definition star (p : cclass) : item := Rep p 0 None.
Definition times (n : nat) (p : cclass) : item := Rep p n (Some n).
Definition lit (c : ascii) : item := one (chr c).
(** [re.escape(s)] as a pattern: the characters of [s], literally *)
Definition lits (s : text) : regex := map lit s.

Definition dec_hi (hi : option nat) : option (option nat) :=
  match hi with
  | None => Some None
  | Some 0 => None
  | Some (S h) => Some (Some h)
  end.

(** Every way of reading at most [hi] characters of class [p] off the
    front of [s], longest first. *)
Fixpoint rep_splits (p : cclass) (hi : option nat) (s : text)
  : list (text * text) :=
  match s with
  | c :: s' =>
      match dec_hi hi with
      | Some hi' =>
          if p c
          then map (fun xr => (c :: fst xr, snd xr)) (rep_splits p hi' s')
               ++ [([], s)]
          else [([], s)]
      | None => [([], s)]
      end
  | [] => [([], [])]
  end.

Fixpoint read_seq (ps : list cclass) (s : text) : option (text * text) :=
  match ps with
  | [] => Some ([], s)
  | p :: ps' =>
      match s with
      | c :: s' =>
          if p c
          then match read_seq ps' s' with
               | Some (x, r) => Some (c :: x, r)
               | None => None
               end
          else None
      | [] => None
      end
  end.

Definition newline : ascii := ascii_of_nat 10.

(** The candidates of one item at the front of [s], in the order the
    backtracking engine tries them: (text consumed, text left). *)
Definition match_item (it : item) (s : text) : list (text * text) :=
  match it with
  | Rep p lo hi =>
      filter (fun xr => lo <=? List.length (fst xr)) (rep_splits p hi s)
  | Alt alts =>
      flat_map (fun ps => match read_seq ps s with
                          | Some xr => [xr]
                          | None => []
                          end) alts
  | Eol =>
      match s with
      | [] => [([], [])]
      | [c] => if Ascii.eqb c newline then [([], s)] else []
      | _ => []
      end
  end.

(** All matches of [r] at the front of [s], in priority order: the text
    consumed by each item, and the text left. *)
Fixpoint match_items (r : regex) (s : text) : list (list text * text) :=
  match r with
  | [] => [([], s)]
  | it :: r' =>
      flat_map (fun xr =>
                  map (fun m => (fst xr :: fst m, snd m))
                      (match_items r' (snd xr)))
               (match_item it s)
  end.

(** [re.match(r, s)]: the first match at the front of [s]. *)
Definition re_match (r : regex) (s : text) : option (list text * text) :=
  hd_error (match_items r s).

(** The text of a match, [m.group(0)] *)
Definition group0 (m : list text * text) : text := List.concat (fst m).

(** [re.search(r, s)]: the match at the leftmost position that has one. *)
Fixpoint re_search (r : regex) (s : text) : option (list text * text) :=
  match re_match r s with
  | Some m => Some m
  | None =>
      match s with
      | [] => None
      | _ :: s' => re_search r s'
      end
  end.

Definition found {A} (o : option A) : bool :=
  match o with Some _ => true | None => false end.

(** [re.findall(r, s)] for a pattern that is one group and matches no
    empty text: the non-overlapping matches from left to right.  [skip]
    counts the characters still covered by the last match. *)
Fixpoint findall_from (r : regex) (skip : nat) (s : text) : list text :=
  match s with
  | [] => []
  | _ :: s' =>
      match skip with
      | S k => findall_from r k s'
      | 0 =>
          match re_match r s with
          | Some m => group0 m :: findall_from r (List.length (group0 m) - 1) s'
          | None => findall_from r 0 s'
          end
      end
  end.

Definition findall (r : regex) (s : text) : list text := findall_from r 0 s.

(** [re.sub(r, repl, s)] for a pattern that matches no empty text. *)
Fixpoint sub_from (r : regex) (repl : text) (skip : nat) (s : text) : text :=
  match s with
  | [] => []
  | c :: s' =>
      match skip with
      | S k => sub_from r repl k s'
      | 0 =>
          match re_match r s with
          | Some m => repl ++ sub_from r repl (List.length (group0 m) - 1) s'
          | None => c :: sub_from r repl 0 s'
          end
      end
  end.

Definition sub (r : regex) (repl s : text) : text := sub_from r repl 0 s.

(** [re.IGNORECASE]: a character is in a class when one of its two cases
    is. *)
Definition icase_class (p : cclass) : cclass :=
  fun c => p c || p (lower_char c) || p (upper_char c).

Definition icase_item (it : item) : item :=
  match it with
  | Rep p lo hi => Rep (icase_class p) lo hi
  | Alt alts => Alt (map (map icase_class) alts)
  | Eol => Eol
  end.

Definition icase (r : regex) : regex := map icase_item r.

(** Classes of the program's patterns *)
Definition upper_or_dot : cclass := fun c => isupper c || chr "." c.  (* [A-Z\.] *)
Definition not_gt : cclass := fun c => negb (chr ">" c).               (* [^>] *)
Definition slash_or_dash : cclass := fun c => chr "/" c || chr "-" c.   (* [/-] *)

(** A pattern in which every quantified class has a fixed count, or is
    followed by an item that must read a character outside the class. *)
Definition stops_before (p : cclass) (r : regex) : Prop :=
  match r with
  | Rep q lo _ :: _ => 1 <= lo /\ forall c, q c = true -> p c = false
  | _ => False
  end.

Fixpoint unambiguous (r : regex) : Prop :=
  match r with
  | [] => True
  | Rep p lo hi :: r' => (hi = Some lo \/ stops_before p r') /\ unambiguous r'
  | Eol :: r' => unambiguous r'
  | Alt _ :: _ => False
  end.

(** [r'] is [r] with lower bounds of quantifiers lowered. *)
Fixpoint relaxes (r r' : regex) : Prop :=
  match r, r' with
  | [], [] => True
  | Rep p lo hi :: t, Rep p' lo' hi' :: t' =>
      p' = p /\ lo' <= lo /\ hi' = hi /\ relaxes t t'
  | Eol :: t, Eol :: t' => relaxes t t'
  | _, _ => False
  end.

End Re.

(** The text consumed by the [n]-th item of the pattern *)
Definition piece (n : nat) (m : list text * text) : text := nth n (fst m) [].

(** ** [_parse_case_number] *)

Record ParsedCaseNumber := {
  pc_case_type : text;
  pc_number : text;
  pc_year : text
}.

Definition case_types : list text :=
  [ "W.P.(C)" : text; "W.P.(CRL)" : text; "W.P.(MD)" : text;
    "W.P.(CIVIL)" : text; "W.P.(CRIMINAL)" : text;
    "C.M.(M)" : text; "C.M.(W)" : text; "C.M.(MAIN)" : text;
    "C.M.(APPL)" : text; "C.M.(NO.)" : text;
    "LPA" : text; "FAO" : text; "RFA" : text; "CRL.A." : text;
    "CRL.M.C." : text; "CRL.REV.P." : text;
    "C.R.P." : text; "C.M." : text; "O.A." : text; "T.A." : text;
    "A.A." : text; "E.P." : text ].

(** [rf"^{re.escape(case_type)}\s*(\d+)/(\d{4})$"]; [re.match] starts at
    the front of the string, which is all that [^] asks. *)
Definition known_pattern (case_type : text) : Re.regex :=
  Re.lits case_type ++
  [Re.star isspace; Re.plus isdigit; Re.lit "/"; Re.times 4 isdigit; Re.Eol].

(** The alternative patterns, each with the positions of its three
    groups:
    [^([A-Z\.]+)\s*(\d+)/(\d{4})$],
    [^([A-Z\.]+)\s*(\d+)\s*of\s*(\d{4})$],
    [^([A-Z\.]+)\s*(\d+)-(\d{4})$]. *)
Definition patterns : list (Re.regex * (nat * nat * nat)) :=
  [ ([Re.plus Re.upper_or_dot; Re.star isspace; Re.plus isdigit;
      Re.lit "/"; Re.times 4 isdigit; Re.Eol], (0, 2, 4));
    ([Re.plus Re.upper_or_dot; Re.star isspace; Re.plus isdigit;
      Re.star isspace; Re.lit "o"; Re.lit "f"; Re.star isspace;
      Re.times 4 isdigit; Re.Eol], (0, 2, 7));
    ([Re.plus Re.upper_or_dot; Re.star isspace; Re.plus isdigit;
      Re.lit "-"; Re.times 4 isdigit; Re.Eol], (0, 2, 4)) ].

Fixpoint match_known (types : list text) (case_number : text)
  : option ParsedCaseNumber :=
  match types with
  | [] => None
  | case_type :: types' =>
      match Re.re_match (Re.icase (known_pattern case_type)) case_number with
      | Some m =>
          Some {| pc_case_type := case_type;
                  pc_number := piece (List.length case_type + 1) m;
                  pc_year := piece (List.length case_type + 3) m |}
      | None => match_known types' case_number
      end
  end.

Fixpoint match_generic (pats : list (Re.regex * (nat * nat * nat)))
  (case_number : text) : option ParsedCaseNumber :=
  match pats with
  | [] => None
  | (pattern, (g1, g2, g3)) :: pats' =>
      match Re.re_match (Re.icase pattern) case_number with
      | Some m =>
          Some {| pc_case_type := strip (piece g1 m);
                  pc_number := piece g2 m;
                  pc_year := piece g3 m |}
      | None => match_generic pats' case_number
      end
  end.

Definition _parse_case_number (case_number : text) : option ParsedCaseNumber :=
  match match_known case_types case_number with
  | Some info => Some info
  | None => match_generic patterns case_number
  end.

(** ** [_extract_case_type] *)

Definition _extract_case_type (case_number : text) : text :=
  match case_number with
  | [] => "Unknown"
  | _ =>
      match split case_number with
      | part :: _ => part
      | [] => "Unknown"
      end
  end.

(** ** [_parse_date] *)

Module Strptime.

Local Open Scope N_scope.

(** The directives that occur in the program's formats *)
Inductive directive := Dd | Dm | DY | Dy | Sep (c : ascii).

Definition between (a b : ascii) : Re.cclass :=
  in_range (nat_of_ascii a) (nat_of_ascii b).

(** The pattern [datetime.strptime] compiles a directive to:
    [%d] is [3[0-1]|[1-2]\d|0[1-9]|[1-9]| [1-9]],
    [%m] is [1[0-2]|0[1-9]|[1-9]], [%Y] is [\d\d\d\d], [%y] is [\d\d]. *)
Definition item_of (d : directive) : Re.item :=
  match d with
  | Dd => Re.Alt [ [Re.chr "3"; between "0" "1"];
                   [between "1" "2"; isdigit];
                   [Re.chr "0"; between "1" "9"];
                   [between "1" "9"];
                   [Re.chr " "; between "1" "9"] ]
  | Dm => Re.Alt [ [Re.chr "1"; between "0" "2"];
                   [Re.chr "0"; between "1" "9"];
                   [between "1" "9"] ]
  | DY => Re.times 4 isdigit
  | Dy => Re.times 2 isdigit
  | Sep c => Re.lit c
  end.

Record date := { year : N; month : N; day : N }.

Definition digit_value (c : ascii) : N := N_of_ascii c - 48.

(** [int(s)] on an optional blank followed by digits *)
Definition int (s : text) : N :=
  fold_left (fun acc c => 10 * acc + digit_value c) (strip s) 0.

Definition set_field (d : directive) (s : text) (acc : date) : date :=
  match d with
  | Dd => {| year := year acc; month := month acc; day := int s |}
  | Dm => {| year := year acc; month := int s; day := day acc |}
  | DY => {| year := int s; month := month acc; day := day acc |}
  | Dy => {| year := if int s <=? 68 then int s + 2000 else int s + 1900;
             month := month acc; day := day acc |}
  | Sep _ => acc
  end.

Fixpoint set_fields (fmt : list directive) (pieces : list text) (acc : date)
  : date :=
  match fmt, pieces with
  | d :: fmt', s :: pieces' => set_fields fmt' pieces' (set_field d s acc)
  | _, _ => acc
  end.

Definition is_leap (y : N) : bool :=
  (y mod 4 =? 0) && (negb (y mod 100 =? 0) || (y mod 400 =? 0)).

Definition days_in_month (y m : N) : N :=
  match m with
  | 2 => if is_leap y then 29 else 28
  | 4 | 6 | 9 | 11 => 30
  | _ => 31
  end.

(** The dates [datetime] accepts: years 1 to 9999 *)
Definition valid (d : date) : bool :=
  (1 <=? year d) && (year d <=? 9999) &&
  (1 <=? month d) && (month d <=? 12) &&
  (1 <=? day d) && (day d <=? days_in_month (year d) (month d)).

(** [datetime.strptime(s, fmt)]; [None] stands for [ValueError]: the
    string does not match the format, unconverted data remains after the
    match, or the fields are not a date. *)
Definition strptime (s : text) (fmt : list directive) : option date :=
  match Re.re_match (Re.icase (map item_of fmt)) s with
  | None => None
  | Some m =>
      match snd m with
      | _ :: _ => None
      | [] =>
          let d := set_fields fmt (fst m) {| year := 1900; month := 1; day := 1 |} in
          if valid d then Some d else None
      end
  end.

Definition digit_char (n : N) : ascii := ascii_of_N (48 + n mod 10).

Definition pad2 (n : N) : text := [digit_char (n / 10); digit_char n].

Definition pad4 (n : N) : text :=
  [digit_char (n / 1000); digit_char (n / 100); digit_char (n / 10);
   digit_char n].

(** [%Y] as the C library writes it: the year as a decimal number, with
    no padding.  The years of a [datetime] are 1 to 9999. *)
Definition year_text (y : N) : text :=
  if y <? 10 then [digit_char y]
  else if y <? 100 then [digit_char (y / 10); digit_char y]
  else if y <? 1000
       then [digit_char (y / 100); digit_char (y / 10); digit_char y]
       else pad4 y.

(** [d.strftime('%Y-%m-%d')]: the month and the day with two digits, the
    year as [%Y] gives it *)
Definition strftime (d : date) : text :=
  year_text (year d) ++ ("-" : text) ++ pad2 (month d) ++ ("-" : text)
  ++ pad2 (day d).

End Strptime.

Import Strptime.

(** ['%d/%m/%Y', '%d-%m-%Y', '%Y-%m-%d', '%d/%m/%y', '%d-%m-%y', '%Y/%m/%d'] *)
Definition date_formats : list (list directive) :=
  [ [Dd; Sep "/"; Dm; Sep "/"; DY];
    [Dd; Sep "-"; Dm; Sep "-"; DY];
    [DY; Sep "-"; Dm; Sep "-"; Dd];
    [Dd; Sep "/"; Dm; Sep "/"; Dy];
    [Dd; Sep "-"; Dm; Sep "-"; Dy];
    [DY; Sep "/"; Dm; Sep "/"; Dd] ].

(** The loop over the formats: the first that parses returns. *)
Fixpoint try_formats (fmts : list (list directive)) (s : text) : option text :=
  match fmts with
  | [] => None
  | fmt :: fmts' =>
      match strptime s fmt with
      | Some parsed_date => Some (strftime parsed_date)
      | None => try_formats fmts' s
      end
  end.

Definition _parse_date (date_string : option text) : option text :=
  match date_string with
  | Some (c :: s) => try_formats date_formats (strip (c :: s))
  | _ => None
  end.

(** ** Documents

    The tree [BeautifulSoup(html_content, 'html.parser')] builds: tags
    with their attributes and contents, and the strings between them. *)

#[warnings="-register-all"] Inductive node :=
| NavigableString (s : text)
| Tag (name : text) (attrs : list (text * text)) (contents : list node).

(** [tag.descendants]: every node below, in document order *)
Fixpoint descendants (n : node) : list node :=
  match n with
  | NavigableString _ => []
  | Tag _ _ cs => flat_map (fun c => c :: descendants c) cs
  end.

(** The soup object is the list of the top-level nodes. *)
Definition soup_descendants (soup : list node) : list node :=
  flat_map (fun c => c :: descendants c) soup.

Fixpoint lookup (key : text) (d : list (text * text)) : option text :=
  match d with
  | [] => None
  | (k, v) :: d' => if text_eqb k key then Some v else lookup key d'
  end.

(** [tag.get(key)] *)
Definition get (key : text) (n : node) : option text :=
  match n with
  | Tag _ attrs _ => lookup key attrs
  | NavigableString _ => None
  end.

Definition is_tag (names : list text) (n : node) : bool :=
  match n with
  | Tag name _ _ => existsb (text_eqb name) names
  | NavigableString _ => false
  end.

(** The parser splits the value of [class] at whitespace; a filter on
    [class_] accepts a tag when one of the values, or the whole
    attribute, passes. *)
Definition class_matches (test : text -> bool) (n : node) : bool :=
  match get "class" n with
  | Some v => existsb test (split v) || test (join " " (split v))
  | None => false
  end.

(** The strings below a node, in document order *)
Fixpoint strings (n : node) : list text :=
  match n with
  | NavigableString s => [s]
  | Tag _ _ cs => flat_map strings cs
  end.

Definition nonempty (s : text) : bool :=
  match s with [] => false | _ :: _ => true end.

(** [tag.get_text(strip=True)]: the strings stripped, the empty ones
    dropped, the rest joined *)
Definition get_text (n : node) : text :=
  List.concat (filter nonempty (map strip (strings n))).

(** ** Case records *)

Module Case.

Record CaseRecord := {
  case_number : text;
  petitioner : text;
  respondent : text;
  filing_date : option text;
  status : text;
  court : text;
  case_type : text;
  judge : option text;
  next_hearing : option text
}.

End Case.

Import Case.

(** ** [_extract_case_from_row] *)

(** The local variables of the loop over the cells *)
Record row_vars := {
  v_case_number : option text;
  v_petitioner : option text;
  v_respondent : option text;
  v_filing_date : option text;
  v_status : option text
}.

Definition row_init : row_vars :=
  {| v_case_number := None; v_petitioner := None; v_respondent := None;
     v_filing_date := None; v_status := None |}.

(** [[A-Z\.]+\([A-Z]+\)\s+\d+/\d{4}] *)
Definition row_case_re : Re.regex :=
  [Re.plus Re.upper_or_dot; Re.lit "("; Re.plus isupper; Re.lit ")";
   Re.plus isspace; Re.plus isdigit; Re.lit "/"; Re.times 4 isdigit].

(** [\d{1,2}[/-]\d{1,2}[/-]\d{4}] *)
Definition row_date_re : Re.regex :=
  [Re.Rep isdigit 1 (Some 2); Re.one Re.slash_or_dash;
   Re.Rep isdigit 1 (Some 2); Re.one Re.slash_or_dash; Re.times 4 isdigit].

Definition status_words : list text :=
  ["pending" : text; "disposed" : text; "dismissed" : text; "closed" : text].

(** The arm of the [if]/[elif] chain a cell takes *)
Inductive branch := CaseNumber | Party | Date | Status | Skip.

Definition branch_of (vars : row_vars) (cell_text : text) : branch :=
  if negb (truthy (v_case_number vars))
     && Re.found (Re.re_search row_case_re cell_text)
  then CaseNumber
  else if contains "petitioner" (lower cell_text)
          || contains "vs" (lower cell_text)
  then Party
  else if Re.found (Re.re_search row_date_re cell_text)
  then Date
  else if existsb (fun status_word => contains status_word (lower cell_text))
                  status_words
  then Status
  else Skip.

Definition row_step (cells : list node) (vars : row_vars) (i : nat)
  (cell : node) : row_vars :=
  let cell_text := get_text cell in
  match branch_of vars cell_text with
  | CaseNumber =>
      {| v_case_number := Some cell_text; v_petitioner := v_petitioner vars;
         v_respondent := v_respondent vars;
         v_filing_date := v_filing_date vars; v_status := v_status vars |}
  | Party =>
      match nth_error cells (i + 1) with
      | Some next =>
          {| v_case_number := v_case_number vars;
             v_petitioner := Some (get_text next);
             v_respondent := v_respondent vars;
             v_filing_date := v_filing_date vars; v_status := v_status vars |}
      | None => vars
      end
  | Date =>
      if negb (truthy (v_filing_date vars))
      then {| v_case_number := v_case_number vars;
              v_petitioner := v_petitioner vars;
              v_respondent := v_respondent vars;
              v_filing_date := Some cell_text; v_status := v_status vars |}
      else vars
  | Status =>
      {| v_case_number := v_case_number vars; v_petitioner := v_petitioner vars;
         v_respondent := v_respondent vars;
         v_filing_date := v_filing_date vars; v_status := Some cell_text |}
  | Skip => vars
  end.

(** [for i, cell in enumerate(cells)], from index [i] on *)
Fixpoint row_loop (cells : list node) (vars : row_vars) (i : nat)
  (rest : list node) : row_vars :=
  match rest with
  | [] => vars
  | cell :: rest' => row_loop cells (row_step cells vars i cell) (S i) rest'
  end.

Definition _extract_case_from_row (cells : list node) : option CaseRecord :=
  let vars := row_loop cells row_init 0 cells in
  if truthy (v_case_number vars)
  then Some {| case_number := or_default (v_case_number vars) [];
               petitioner := or_default (v_petitioner vars) "N/A";
               respondent := or_default (v_respondent vars) "N/A";
               filing_date := if truthy (v_filing_date vars)
                              then _parse_date (v_filing_date vars)
                              else None;
               status := or_default (v_status vars) "Unknown";
               court := "Delhi High Court";
               case_type := _extract_case_type (or_default (v_case_number vars) []);
               judge := None;
               next_hearing := None |}
  else None.

(** ** [_extract_from_divs], [_extract_case_data], [_extract_text] *)

(** [tag.find_all(names)] *)
Definition find_all (names : list text) (n : node) : list node :=
  filter (is_tag names) (descendants n).

(** [soup.find_all(names)] *)
Definition soup_find_all (names : list text) (soup : list node) : list node :=
  filter (is_tag names) (soup_descendants soup).

Definition is_element (n : node) : bool :=
  match n with Tag _ _ _ => true | NavigableString _ => false end.

(** [element.find(class_=class_name)] *)
Definition find_class (class_name : text) (element : node) : option node :=
  List.find (fun n => is_element n && class_matches (text_eqb class_name) n)
            (descendants element).

Fixpoint _extract_text (element : node) (class_names : list text)
  : option text :=
  match class_names with
  | [] => None
  | class_name :: class_names' =>
      match find_class class_name element with
      | Some found => Some (get_text found)
      | None => _extract_text element class_names'
      end
  end.

Definition _extract_case_data (element : node) : option CaseRecord :=
  let case_number := _extract_text element ["case-number" : text; "case_no" : text; "case_number" : text] in
  let petitioner := _extract_text element ["petitioner" : text; "petitioner_name" : text] in
  let respondent := _extract_text element ["respondent" : text; "respondent_name" : text] in
  let filing_date := _extract_text element ["filing_date" : text; "date_filed" : text] in
  let status := _extract_text element ["status" : text; "case_status" : text] in
  if truthy case_number
  then Some {| case_number := or_default case_number [];
               petitioner := or_default petitioner "N/A";
               respondent := or_default respondent "N/A";
               filing_date := if truthy filing_date
                              then _parse_date filing_date else None;
               status := or_default status "Unknown";
               court := "Delhi High Court";
               case_type := _extract_case_type (or_default case_number []);
               judge := _extract_text element ["judge" : text; "judge_name" : text];
               next_hearing := _extract_text element ["next_hearing" : text; "hearing_date" : text] |}
  else None.

(** [case|result|row|item] *)
Definition div_class_re : Re.regex :=
  [Re.Alt [map Re.chr ("case" : text); map Re.chr ("result" : text);
           map Re.chr ("row" : text); map Re.chr ("item" : text)]].

Definition keep {A} (o : option A) : list A :=
  match o with Some a => [a] | None => [] end.

Definition _extract_from_divs (soup : list node) : list CaseRecord :=
  let case_divs :=
    filter (fun n => is_tag ["div" : text] n
                     && class_matches (fun v => Re.found (Re.re_search div_class_re v)) n)
           (soup_descendants soup) in
  flat_map (fun div => keep (_extract_case_data div)) case_divs.

(** ** [_extract_from_text] *)

(** [<[^>]+>] *)
Definition tag_re : Re.regex := [Re.lit "<"; Re.plus Re.not_gt; Re.lit ">"].

(** [\s+] *)
Definition spaces_re : Re.regex := [Re.plus isspace].

(** [([A-Z\.]+\s+\d+/\d{4})], [([A-Z\.]+\s+\d+\s+of\s+\d{4})],
    [([A-Z\.]+\s+\d+-\d{4})] *)
Definition case_patterns : list Re.regex :=
  [ [Re.plus Re.upper_or_dot; Re.plus isspace; Re.plus isdigit;
     Re.lit "/"; Re.times 4 isdigit];
    [Re.plus Re.upper_or_dot; Re.plus isspace; Re.plus isdigit;
     Re.plus isspace; Re.lit "o"; Re.lit "f"; Re.plus isspace;
     Re.times 4 isdigit];
    [Re.plus Re.upper_or_dot; Re.plus isspace; Re.plus isdigit;
     Re.lit "-"; Re.times 4 isdigit] ].

(** The record built for one match of the text scan *)
Definition text_case (mtch : text) : CaseRecord :=
  {| case_number := strip mtch;
     petitioner := "N/A";
     respondent := "N/A";
     filing_date := None;
     status := "Unknown";
     court := "Delhi High Court";
     case_type := _extract_case_type mtch;
     judge := None;
     next_hearing := None |}.

(** The text the scan runs on: tags replaced by blanks, whitespace runs
    collapsed, the ends stripped *)
Definition plain_text (html_content : text) : text :=
  strip (Re.sub spaces_re " " (Re.sub tag_re " " html_content)).

Definition _extract_from_text (html_content : text) : list CaseRecord :=
  let text := plain_text html_content in
  flat_map (fun pattern => map text_case (Re.findall (Re.icase pattern) text))
           case_patterns.

(** ** [_parse_search_results] *)

Inductive strategy := TableRows | FreeText | ClassedDivs.

Definition has_captcha (html_content : text) : bool :=
  contains "captcha" (lower html_content)
  || contains "verify" (lower html_content).

(** The loops over the tables, their rows and the cells of a row *)
Definition table_cases (soup : list node) : list CaseRecord :=
  flat_map (fun table =>
    flat_map (fun row =>
      let cells := find_all ["td" : text; "th" : text] row in
      if 3 <=? List.length cells
      then keep (_extract_case_from_row cells)
      else [])
      (find_all ["tr" : text] table))
    (soup_find_all ["table" : text] soup).

(** The body of [_parse_search_results] on the document [html_content]
    and its tree [soup], with the strategies it ran, in order. *)
Definition parse_run (soup : list node) (html_content : text)
  : list strategy * list CaseRecord :=
  if has_captcha html_content then ([], [])
  else
    match table_cases soup with
    | c :: cases => ([TableRows], c :: cases)
    | [] =>
        match _extract_from_text html_content with
        | c :: cases => ([TableRows; FreeText], c :: cases)
        | [] => ([TableRows; FreeText; ClassedDivs], _extract_from_divs soup)
        end
    end.

Definition _parse_search_results (soup : list node) (html_content : text)
  : list CaseRecord :=
  snd (parse_run soup html_content).

(** ** [_get_mock_cases] *)

Definition mock_cases : list CaseRecord :=
  [ {| case_number := "W.P.(C) 1040/2023";
       petitioner := "Reliance Industries Limited";
       respondent := "Union of India & Ors.";
       filing_date := Some ("2023-03-15" : text);
       status := "Pending";
       court := "Delhi High Court";
       case_type := "W.P.(C)";
       judge := Some ("Hon'ble Mr. Justice Rajiv Shakdher" : text);
       next_hearing := Some ("2024-01-15" : text) |};
    {| case_number := "LPA 163/2023";
       petitioner := "State of Delhi";
       respondent := "Delhi Development Authority";
       filing_date := Some ("2023-02-20" : text);
       status := "Disposed";
       court := "Delhi High Court";
       case_type := "LPA";
       judge := Some ("Hon'ble Mr. Justice Vipin Sanghi" : text);
       next_hearing := None |};
    {| case_number := "FAO 456/2022";
       petitioner := "John Doe";
       respondent := "ABC Corporation";
       filing_date := Some ("2022-11-10" : text);
       status := "Pending";
       court := "Delhi High Court";
       case_type := "FAO";
       judge := Some ("Hon'ble Ms. Justice Rekha Palli" : text);
       next_hearing := Some ("2024-01-20" : text) |};
    {| case_number := "CRL.A. 789-2021";
       petitioner := "Central Bureau of Investigation";
       respondent := "XYZ Limited";
       filing_date := Some ("2021-08-05" : text);
       status := "Pending";
       court := "Delhi High Court";
       case_type := "CRL.A.";
       judge := Some ("Hon'ble Mr. Justice Siddharth Mridul" : text);
       next_hearing := Some ("2024-01-25" : text) |};
    {| case_number := "C.M.(M) 123/2023";
       petitioner := "Delhi Metro Rail Corporation";
       respondent := "Municipal Corporation of Delhi";
       filing_date := Some ("2023-04-12" : text);
       status := "Pending";
       court := "Delhi High Court";
       case_type := "C.M.(M)";
       judge := Some ("Hon'ble Mr. Justice Yashwant Varma" : text);
       next_hearing := Some ("2024-01-30" : text) |} ].

(** The loop that fills [filtered_cases]; each [continue] ends the turn
    of the record at hand. *)
Fixpoint filter_cases (case_number party_name : text)
  (cases : list CaseRecord) : list CaseRecord :=
  match cases with
  | [] => []
  | case :: cases' =>
      let rest := filter_cases case_number party_name cases' in
      if nonempty case_number
         && contains (lower case_number) (lower (Case.case_number case))
      then case :: rest
      else
        let party_lower := lower party_name in
        let petitioner_lower := lower (petitioner case) in
        let respondent_lower := lower (respondent case) in
        if nonempty party_name
           && (contains party_lower petitioner_lower
               || contains party_lower respondent_lower
               || contains petitioner_lower party_lower
               || contains respondent_lower party_lower)
        then case :: rest
        else if negb (nonempty case_number) && negb (nonempty party_name)
        then case :: rest
        else rest
  end.

Definition _get_mock_cases (case_number party_name : text) : list CaseRecord :=
  firstn 5 (filter_cases case_number party_name mock_cases).

(** ** [_search_by_case_number] *)

Inductive request :=
| Get (url : text)
| Post (url : text) (data : list (text * text)).

Definition search_url : text := "https://delhihighcourt.nic.in/case.asp".

(** [d[key] = value] *)
Fixpoint dict_set (key value : text) (d : list (text * text))
  : list (text * text) :=
  match d with
  | [] => [(key, value)]
  | (k, v) :: d' =>
      if text_eqb k key then (k, value) :: d' else (k, v) :: dict_set key value d'
  end.

Section Search.

(** The transport and the HTML parser are outside the repository.  A
    request answers with the text of the response, or raises (no
    connection, a status that [raise_for_status] rejects, a timeout). *)
Variable session_get : text -> option text.
Variable session_post : text -> list (text * text) -> option text.
Variable BeautifulSoup : text -> list node.

(** The hidden inputs of the search page, copied into the form data *)
Definition echo_hidden (soup : list node) (search_data : list (text * text))
  : list (text * text) :=
  fold_left (fun data hidden =>
               match get "name" hidden with
               | Some (c :: name) =>
                   dict_set (c :: name)
                            (match get "value" hidden with
                             | Some value => value
                             | None => []
                             end) data
               | _ => data
               end)
            (filter (fun n => match get "type" n with
                              | Some t => text_eqb t "hidden"
                              | None => false
                              end)
                    (soup_find_all ["input" : text] soup))
            search_data.

(** The result, with the requests issued, in order.  An exception at
    any step is caught and gives the empty list. *)
Definition _search_by_case_number (case_number : text)
  : list request * list CaseRecord :=
  match _parse_case_number case_number with
  | None => ([], [])
  | Some case_info =>
      match session_get search_url with
      | None => ([Get search_url], [])
      | Some page =>
          let soup := BeautifulSoup page in
          let search_data :=
            echo_hidden soup
              [ ("case_type" : text, pc_case_type case_info);
                ("case_number" : text, pc_number case_info);
                ("filing_year" : text, pc_year case_info);
                ("submit" : text, "Search" : text) ] in
          match session_post search_url search_data with
          | None => ([Get search_url; Post search_url search_data], [])
          | Some response_text =>
              ([Get search_url; Post search_url search_data],
               _parse_search_results (BeautifulSoup response_text) response_text)
          end
      end
  end.

End Search.

(** ** [search_cases] and [get_case_details] *)

Definition search_cases (case_number party_name : text) : list CaseRecord :=
  let mock_cases := _get_mock_cases case_number party_name in
  match mock_cases with
  | _ :: _ => mock_cases
  | [] => []
  end.

(** [get_case_details] searches with the case number alone and returns
    the first match. *)
Definition get_case_details (case_number : text) : option CaseRecord :=
  match search_cases case_number [] with
  | case :: _ => Some case
  | [] => None
  end.

(** ** [_search_by_party_name] *)

(** [soup.find_all('input', type='hidden')] *)
Definition hidden_inputs (soup : list node) : list node :=
  filter (fun n => match get "type" n with
                   | Some t => text_eqb t "hidden"
                   | None => false
                   end)
         (soup_find_all ["input" : text] soup).

(** One turn of the loop over the hidden inputs: [search_data[name] = value]
    when the input has a name *)
Definition echo_step (data : list (text * text)) (hidden : node)
  : list (text * text) :=
  match get "name" hidden with
  | Some (c :: name) =>
      dict_set (c :: name)
               (match get "value" hidden with
                | Some value => value
                | None => []
                end) data
  | _ => data
  end.

Section PartySearch.

Variable session_get : text -> option text.
Variable session_post : text -> list (text * text) -> option text.
Variable BeautifulSoup : text -> list node.

Definition _search_by_party_name (party_name : text)
  : list request * list CaseRecord :=
  match session_get search_url with
  | None => ([Get search_url], [])
  | Some page =>
      let soup := BeautifulSoup page in
      let search_data :=
        fold_left echo_step (hidden_inputs soup)
          [ ("party_name" : text, party_name);
            ("search_type" : text, "party" : text);
            ("submit" : text, "Search" : text) ] in
      match session_post search_url search_data with
      | None => ([Get search_url; Post search_url search_data], [])
      | Some response_text =>
          ([Get search_url; Post search_url search_data],
           _parse_search_results (BeautifulSoup response_text) response_text)
      end
  end.

End PartySearch.

(** ** Sample inputs *)

Definition td (s : text) : node := Tag "td" [] [NavigableString s].

Definition sample_row : list node :=
  [ td "W.P.(C) 1040/2023"; td "vs"; td "Reliance Industries Limited";
    td "15/03/2023"; td "Pending" ].

(** [str(tag)]: the markup of a tree, which the parser reads back to it *)
Fixpoint markup (n : node) : text :=
  match n with
  | NavigableString s => s
  | Tag name attrs cs =>
      ("<" : text) ++ name
      ++ List.concat (map (fun kv => (" " : text) ++ fst kv ++ ("=" : text)
                                     ++ [ascii_of_nat 34] ++ snd kv
                                     ++ [ascii_of_nat 34]) attrs)
      ++ (">" : text) ++ List.concat (map markup cs)
      ++ ("</" : text) ++ name ++ (">" : text)
  end.

Definition soup_markup (soup : list node) : text := List.concat (map markup soup).

(** A result block with classed fields and no table *)
Definition classed_soup : list node :=
  [ Tag "div" [("class" : text, "case-item" : text)]
      [ Tag "span" [("class" : text, "case-number" : text)]
          [NavigableString "LPA 163/2023"];
        Tag "span" [("class" : text, "petitioner" : text)]
          [NavigableString "State of Delhi"] ] ].


Definition busy_record : CaseRecord :=
  {| case_number := "W.P.(C) 1040/2023";
     petitioner := "N/A";
     respondent := "N/A";
     filing_date := Some ("2023-03-15" : text);
     status := "Disposed";
     court := "Delhi High Court";
     case_type := "W.P.(C)";
     judge := None;
     next_hearing := None |}.

(** The arms the cells of a row take, in order *)
Fixpoint row_branches (cells : list node) (vars : row_vars) (i : nat)
  (rest : list node) : list branch :=
  match rest with
  | [] => []
  | cell :: rest' =>
      branch_of vars (get_text cell)
      :: row_branches cells (row_step cells vars i cell) (S i) rest'
  end.

(** ** The filtering rule of the mock source, as the specification words it *)

Definition spec_case_insensitive_substring (a b : text) : bool :=
  contains (lower a) (lower b).

Definition spec_includes (query_case_number query_party_name : text)
  (record : CaseRecord) : bool :=
  if nonempty query_case_number
     && spec_case_insensitive_substring query_case_number (case_number record)
  then true
  else if nonempty query_party_name
          && (spec_case_insensitive_substring query_party_name (petitioner record)
              || spec_case_insensitive_substring (petitioner record) query_party_name
              || spec_case_insensitive_substring query_party_name (respondent record)
              || spec_case_insensitive_substring (respondent record) query_party_name)
  then true
  else negb (nonempty query_case_number) && negb (nonempty query_party_name).

Definition spec_mock_filter (query_case_number query_party_name : text)
  : list CaseRecord :=
  firstn 5 (filter (spec_includes query_case_number query_party_name) mock_cases).

(** ** The output form of the date normalizer: [YYYY-MM-DD] *)

Definition is_iso_date (s : text) : bool :=
  match s with
  | [y1; y2; y3; y4; h1; m1; m2; h2; d1; d2] =>
      forallb isdigit [y1; y2; y3; y4; m1; m2; d1; d2]
      && Ascii.eqb h1 "-" && Ascii.eqb h2 "-"
  | _ => false
  end.

(** ** Notions the further properties are stated with *)

(** Text without whitespace *)
Definition solid (s : text) : Prop :=
  forallb (fun c => negb (isspace c)) s = true.

(** What the scan takes for a case number: letters or dots, whitespace,
    and more, the last four characters being digits. *)
Definition scanned (x l w : text) : Prop :=
  exists rest y,
    x = l ++ w ++ rest ++ y
    /\ l <> [] /\ forallb (Re.icase_class Re.upper_or_dot) l = true
    /\ w <> [] /\ forallb isspace w = true
    /\ List.length y = 4 /\ forallb isdigit y = true.

(** No whitespace character next to another *)
Fixpoint no_double (t : text) : Prop :=
  match t with
  | a :: (b :: _) as t' => (isspace a = true -> isspace b = false) /\ no_double t'
  | _ => True
  end.

Definition starts_solid (t : text) : Prop :=
  match t with
  | c :: _ => isspace c = false
  | [] => True
  end.

(** [hidden.get('value', '')] *)
Definition value_of (hidden : node) : text :=
  match get "value" hidden with
  | Some value => value
  | None => []
  end.

(** The loop over the rows of one table, the body of the loop over the
    tables *)
Definition rows_of_table (table : node) : list CaseRecord :=
  flat_map (fun row =>
              let cells := find_all ["td" : text; "th" : text] row in
              if 3 <=? List.length cells
              then keep (_extract_case_from_row cells)
              else [])
           (find_all ["tr" : text] table).

(** A block whose first case-number element has no text *)
Definition empty_alias_block : node :=
  Tag "div" [("class" : text, "case" : text)]
    [ Tag "span" [("class" : text, "case-number" : text)] [];
      Tag "span" [("class" : text, "case_no" : text)]
        [NavigableString "LPA 163/2023"] ].

(** A search page with two hidden inputs of one name *)
Definition token_page : list node :=
  [ Tag "form" []
      [ Tag "input" [("type" : text, "hidden" : text);
                     ("name" : text, "token" : text);
                     ("value" : text, "abc" : text)] [];
        Tag "input" [("type" : text, "text" : text);
                     ("name" : text, "party_name" : text)] [];
        Tag "input" [("type" : text, "hidden" : text);
                     ("name" : text, "token" : text);
                     ("value" : text, "xyz" : text)] [] ] ].

(** A row with two cells on the party arm *)
Definition party_row : list node :=
  [ td "W.P.(C) 1040/2023"; td "Petitioner"; td "State of Delhi";
    td "vs"; td "Union of India"; td "Pending" ].

(** A table of results laid out inside a cell of another table *)
Definition results_table : node :=
  Tag "table" []
    [ Tag "tr" []
        [ td "W.P.(C) 1040/2023"; td "15/03/2023"; td "Pending" ] ].

Definition layout_table : node :=
  Tag "table" []
    [ Tag "tr" [] [ Tag "td" [] [NavigableString "Results"] ];
      Tag "tr" [] [ Tag "td" [] [results_table] ] ].

Definition layout_soup : list node :=
  [ Tag "html" [] [ Tag "body" [] [layout_table] ] ].

(** * Checks on sample inputs *)

Example findall_demo :
  Re.findall [Re.plus isdigit; Re.lit "/"; Re.times 2 isdigit] "a 12/345 6/78/90"
  = ["12/34" : text; "6/78" : text].
Proof. reflexivity. Qed.

Example sub_demo :
  Re.sub [Re.plus isspace] " " "a  b 	c" = ("a b c" : text).
Proof. reflexivity. Qed.

Example parse_date_dmy : _parse_date (Some ("15/03/2023" : text)) = Some ("2023-03-15" : text).
Proof. reflexivity. Qed.

Example parse_date_leap : _parse_date (Some ("29/02/2023" : text)) = None.
Proof. reflexivity. Qed.

Example parse_date_yy : _parse_date (Some (" 5-1-69 " : text)) = Some ("1969-01-05" : text).
Proof. reflexivity. Qed.

Example parse_lpa :
  _parse_case_number "lpa 163/2023"
  = Some {| pc_case_type := "LPA"; pc_number := "163"; pc_year := "2023" |}.
Proof. reflexivity. Qed.

Example parse_generic_of :
  _parse_case_number "ab.c 7 of 1999"
  = Some {| pc_case_type := "ab.c"; pc_number := "7"; pc_year := "1999" |}.
Proof. reflexivity. Qed.

Example mock_lpa :
  map case_number (_get_mock_cases "LPA" []) = ["LPA 163/2023" : text].
Proof. reflexivity. Qed.

Example text_scan_two :
  map (fun c => (case_number c, case_type c))
      (_extract_from_text "<p>LPA 163/2023 ... <b>FAO</b> 456/2022</p>")
  = [("LPA 163/2023" : text, "LPA" : text); ("FAO 456/2022" : text, "FAO" : text)].
Proof. reflexivity. Qed.

(** * Strings *)

Section StringFacts.

Lemma startswith_app (p s : text) : startswith p (p ++ s) = true.
Proof.
  induction p as [|a p IH]; simpl; [reflexivity|].
  now rewrite Ascii.eqb_refl.
Qed.

Lemma contains_startswith (p s : text) :
  startswith p s = true -> contains p s = true.
Proof. destruct s; simpl; intros ->; reflexivity. Qed.

Lemma contains_app (p pre post : text) : contains p (pre ++ p ++ post) = true.
Proof.
  induction pre as [|a pre IH]; simpl.
  - apply contains_startswith, startswith_app.
  - rewrite IH. apply orb_true_r.
Qed.

Lemma lower_app (a b : text) : lower (a ++ b) = lower a ++ lower b.
Proof. apply map_app. Qed.

Lemma lstrip_head (s : text) (c : ascii) (s' : text) :
  lstrip s = c :: s' -> isspace c = false.
Proof.
  induction s as [|a s IH]; simpl; [discriminate|].
  destruct (isspace a) eqn:E; [exact IH|].
  intros H. injection H as -> _. exact E.
Qed.

Lemma lstrip_keeps (c : ascii) (s : text) :
  isspace c = false -> lstrip (c :: s) = c :: s.
Proof. intros H. simpl. now rewrite H. Qed.

Lemma lstrip_snoc (s : text) (c : ascii) :
  isspace c = false -> exists t, lstrip (s ++ [c]) = t ++ [c].
Proof.
  intros H. induction s as [|a s IH]; simpl.
  - rewrite H. now exists [].
  - destruct (isspace a); [exact IH|]. now exists (a :: s).
Qed.

(** Text that ends with a character other than whitespace keeps its end
    under [rstrip]. *)
Lemma rstrip_keeps (s : text) (c : ascii) :
  isspace c = false -> rstrip (s ++ [c]) = s ++ [c].
Proof.
  intros H. unfold rstrip. rewrite rev_app_distr. simpl.
  rewrite H. simpl. now rewrite rev_involutive.
Qed.

(** What [strip] returns does not end with whitespace. *)
Lemma strip_last (s t : text) (c : ascii) :
  strip s = t ++ [c] -> isspace c = false.
Proof.
  unfold strip, rstrip. intros H.
  apply (f_equal (@rev ascii)) in H.
  rewrite rev_involutive, rev_app_distr in H. simpl in H.
  exact (lstrip_head _ _ _ H).
Qed.

(** Text that starts with a character other than whitespace is not
    stripped to nothing. *)
Lemma strip_nonempty (c : ascii) (s : text) :
  isspace c = false -> strip (c :: s) <> [].
Proof.
  intros H. unfold strip. rewrite (lstrip_keeps _ _ H).
  unfold rstrip. simpl.
  destruct (lstrip_snoc (rev s) c H) as [t Ht]. rewrite Ht.
  rewrite rev_app_distr. simpl. discriminate.
Qed.

Lemma truthy_or_default (o : option text) :
  truthy o = true -> or_default o [] <> [] /\ o = Some (or_default o []).
Proof.
  destruct o as [[|c s]|]; simpl; try discriminate.
  intros _. split; [discriminate|reflexivity].
Qed.

End StringFacts.

(** * The strategies in order, and the CAPTCHA check *)

(** C3 -- A document whose raw text contains "captcha" or "verify", in
    any letter case, makes [_parse_search_results] return the empty list,
    and no extraction strategy runs. *)
Theorem captcha_returns_empty (soup : list node) (pre w post : text) :
  lower w = ("captcha" : text) \/ lower w = ("verify" : text) ->
  parse_run soup (pre ++ w ++ post) = ([], [])
  /\ _parse_search_results soup (pre ++ w ++ post) = [].
Proof.
  intros H.
  assert (E : has_captcha (pre ++ w ++ post) = true).
  { unfold has_captcha. rewrite !lower_app.
    destruct H as [-> | ->]; rewrite contains_app;
      [reflexivity | apply orb_true_r]. }
  unfold _parse_search_results, parse_run. now rewrite E.
Qed.

Lemma captcha_returns_empty_witness :
  let page := ("Please complete the " : text) ++ ("CAPTCHA" : text) ++ [] in
  parse_run [NavigableString page] page = ([], [])
  /\ _parse_search_results [NavigableString page] page = [].
Proof.
  intros page.
  apply (captcha_returns_empty [NavigableString page]
           "Please complete the " "CAPTCHA" []).
  left. reflexivity.
Defined.

(** C1, as the code has it -- On a document that passes the CAPTCHA
    check the strategies run in the order table rows, free text, classed
    elements, and none runs once an earlier one has produced a record:
    records from the table rows are returned as they are; with none from
    the rows, records from the free-text scan are returned and the classed
    elements are not looked at; only with none from either are the
    classed elements extracted. *)
Theorem strategies_in_order (soup : list node) (html_content : text) :
  has_captcha html_content = false ->
  (table_cases soup <> [] ->
   parse_run soup html_content = ([TableRows], table_cases soup))
  /\ (table_cases soup = [] -> _extract_from_text html_content <> [] ->
      parse_run soup html_content
      = ([TableRows; FreeText], _extract_from_text html_content))
  /\ (table_cases soup = [] -> _extract_from_text html_content = [] ->
      parse_run soup html_content
      = ([TableRows; FreeText; ClassedDivs], _extract_from_divs soup)).
Proof.
  intros Hc. unfold parse_run. rewrite Hc.
  repeat split.
  - destruct (table_cases soup); [congruence | reflexivity].
  - intros -> H. destruct (_extract_from_text html_content);
      [congruence | reflexivity].
  - now intros -> ->.
Qed.

Lemma strategies_in_order_witness :
  parse_run classed_soup (soup_markup classed_soup)
  = ([TableRows; FreeText], _extract_from_text (soup_markup classed_soup)).
Proof.
  apply (strategies_in_order classed_soup (soup_markup classed_soup));
    [reflexivity | reflexivity | vm_compute; discriminate].
Defined.

(** C1, as stated, fails -- a document without a table on which the
    classed elements and the free-text scan each yield a record: the
    result is the record of the free-text scan, not that of the classed
    elements, and the classed-element strategy does not run. *)
Lemma attribute_before_text_counterexample :
  has_captcha (soup_markup classed_soup) = false
  /\ table_cases classed_soup = []
  /\ _extract_from_divs classed_soup <> []
  /\ _extract_from_text (soup_markup classed_soup) <> []
  /\ _parse_search_results classed_soup (soup_markup classed_soup)
     <> _extract_from_divs classed_soup
  /\ fst (parse_run classed_soup (soup_markup classed_soup))
     = [TableRows; FreeText].
Proof.
  repeat split; try reflexivity; vm_compute; discriminate.
Qed.

(** * The mock source *)

Lemma filter_cases_spec (case_number party_name : text) (cases : list CaseRecord) :
  filter_cases case_number party_name cases
  = filter (spec_includes case_number party_name) cases.
Proof.
  induction cases as [|case cases IH]; simpl; [reflexivity|].
  rewrite IH. unfold spec_includes, spec_case_insensitive_substring.
  destruct (nonempty case_number
            && contains (lower case_number) (lower (Case.case_number case)));
    [reflexivity|].
  destruct (contains (lower party_name) (lower (petitioner case)));
  destruct (contains (lower party_name) (lower (respondent case)));
  destruct (contains (lower (petitioner case)) (lower party_name));
  destruct (contains (lower (respondent case)) (lower party_name));
  destruct (nonempty party_name); destruct (nonempty case_number);
  reflexivity.
Qed.

(** C9 -- The mock source returns the records the filtering rule
    includes (the case-number test first, else the party-name test, all
    records when both query fields are empty), in their order, at most
    five of them; the query with case number "LPA" returns exactly the
    record "LPA 163/2023". *)
Theorem mock_filter_rule :
  (forall case_number party_name : text,
      _get_mock_cases case_number party_name
      = spec_mock_filter case_number party_name
      /\ List.length (_get_mock_cases case_number party_name) <= 5)
  /\ _get_mock_cases [] [] = mock_cases
  /\ _get_mock_cases "LPA" []
     = filter (fun r => contains "lpa" (lower (case_number r))) mock_cases
  /\ map case_number (_get_mock_cases "LPA" []) = ["LPA 163/2023" : text].
Proof.
  split; [|repeat split; reflexivity].
  intros case_number party_name. split.
  - unfold _get_mock_cases, spec_mock_filter. now rewrite filter_cases_spec.
  - unfold _get_mock_cases. rewrite length_firstn. lia.
Qed.

(** * Case numbers that do not parse *)

Lemma match_known_none (types : list text) (s : text) :
  (forall t, In t types -> Re.re_match (Re.icase (known_pattern t)) s = None) ->
  match_known types s = None.
Proof.
  induction types as [|t types IH]; simpl; intros H; [reflexivity|].
  rewrite (H t (or_introl eq_refl)). apply IH.
  intros t' Ht'. apply H. now right.
Qed.

Lemma match_generic_none (pats : list (Re.regex * (nat * nat * nat))) (s : text) :
  (forall g, In g pats -> Re.re_match (Re.icase (fst g)) s = None) ->
  match_generic pats s = None.
Proof.
  induction pats as [|[pattern [[g1 g2] g3]] pats IH]; simpl; intros H;
    [reflexivity|].
  pose proof (H _ (or_introl eq_refl)) as E. simpl in E. rewrite E.
  apply IH. intros g Hg. apply H. now right.
Qed.

(** C7 -- A case number that none of the known case-type patterns and
    none of the three alternative patterns match is not parsed, and the
    search by case number returns the empty list without a request. *)
Theorem unparseable_sends_nothing
  (session_get : text -> option text)
  (session_post : text -> list (text * text) -> option text)
  (BeautifulSoup : text -> list node) (case_number : text) :
  (forall t, In t case_types ->
             Re.re_match (Re.icase (known_pattern t)) case_number = None) ->
  (forall g, In g patterns ->
             Re.re_match (Re.icase (fst g)) case_number = None) ->
  _parse_case_number case_number = None
  /\ _search_by_case_number session_get session_post BeautifulSoup case_number
     = ([], []).
Proof.
  intros Hk Hg.
  assert (E : _parse_case_number case_number = None).
  { unfold _parse_case_number.
    now rewrite (match_known_none _ _ Hk), (match_generic_none _ _ Hg). }
  split; [exact E|]. unfold _search_by_case_number. now rewrite E.
Qed.

Ltac each_member :=
  repeat match goal with
         | H : In _ (_ :: _) |- _ => destruct H as [<- | H]
         | H : In _ [] |- _ => destruct H
         end.

Lemma unparseable_sends_nothing_witness :
  _parse_case_number "banana" = None
  /\ _search_by_case_number (fun _ => Some ("<html></html>" : text))
       (fun _ _ => Some ("<html></html>" : text)) (fun _ => []) "banana"
     = ([], []).
Proof.
  apply (unparseable_sends_nothing _ _ _ ("banana" : text)).
  - intros t Ht. unfold case_types in Ht. each_member; reflexivity.
  - intros g Hg. unfold patterns in Hg. each_member; reflexivity.
Defined.

(** * Rows of a table *)

Lemma row_loop_respondent (cells rest : list node) (vars : row_vars) (i : nat) :
  v_respondent (row_loop cells vars i rest) = v_respondent vars.
Proof.
  revert vars i. induction rest as [|cell rest IH]; intros vars i; simpl;
    [reflexivity|].
  rewrite IH. unfold row_step.
  destruct (branch_of vars (get_text cell)); try reflexivity.
  - destruct (nth_error cells (i + 1)); reflexivity.
  - destruct (negb (truthy (v_filing_date vars))); reflexivity.
Qed.

(** One turn of the loop on a cell whose text is known *)
Ltac row_step_eval H1 H2 H3 H4 H5 :=
  match goal with
  | |- context [row_step ?cells ?vars ?i ?c] =>
      lazymatch vars with
      | context [row_step] => fail
      | _ =>
          let E := fresh "E" in
          let r := fresh "r" in
          evar (r : row_vars);
          assert (E : row_step cells vars i c = r)
            by (unfold row_step; cbn [nth_error Nat.add];
                rewrite ?H1, ?H2, ?H3, ?H4, ?H5; vm_compute; reflexivity);
          subst r; rewrite E; clear E
      end
  end.

(** C4 -- The row with the cell texts "W.P.(C) 1040/2023", "vs",
    "Reliance Industries Limited", "15/03/2023", "Pending" yields one
    record with that case number, petitioner "Reliance Industries
    Limited", filing date "2023-03-15", status "Pending" and respondent
    "N/A"; and the record of any row has respondent "N/A". *)
Theorem row_record :
  (forall c1 c2 c3 c4 c5 : node,
      map get_text [c1; c2; c3; c4; c5]
      = [ "W.P.(C) 1040/2023" : text; "vs" : text;
          "Reliance Industries Limited" : text; "15/03/2023" : text;
          "Pending" : text ] ->
      _extract_case_from_row [c1; c2; c3; c4; c5]
      = Some {| case_number := "W.P.(C) 1040/2023";
                petitioner := "Reliance Industries Limited";
                respondent := "N/A";
                filing_date := Some ("2023-03-15" : text);
                status := "Pending";
                court := "Delhi High Court";
                case_type := "W.P.(C)";
                judge := None;
                next_hearing := None |})
  /\ (forall (cells : list node) (r : CaseRecord),
         _extract_case_from_row cells = Some r -> respondent r = ("N/A" : text)).
Proof.
  split.
  - intros c1 c2 c3 c4 c5 H. simpl in H.
    injection H as H1 H2 H3 H4 H5.
    unfold _extract_case_from_row. cbn [row_loop].
    repeat row_step_eval H1 H2 H3 H4 H5.
    reflexivity.
  - intros cells r H. unfold _extract_case_from_row in H.
    destruct (truthy _); [|discriminate].
    injection H as <-. simpl. now rewrite row_loop_respondent.
Qed.

Lemma row_record_witness :
  _extract_case_from_row sample_row
  = Some {| case_number := "W.P.(C) 1040/2023";
            petitioner := "Reliance Industries Limited";
            respondent := "N/A";
            filing_date := Some ("2023-03-15" : text);
            status := "Pending";
            court := "Delhi High Court";
            case_type := "W.P.(C)";
            judge := None;
            next_hearing := None |}
  /\ respondent {| case_number := "W.P.(C) 1040/2023";
            petitioner := "Reliance Industries Limited";
            respondent := "N/A";
            filing_date := Some ("2023-03-15" : text);
            status := "Pending";
            court := "Delhi High Court";
            case_type := "W.P.(C)";
            judge := None;
            next_hearing := None |} = ("N/A" : text).
Proof.
  destruct row_record as [Hrow Hany].
  pose proof (Hrow (td "W.P.(C) 1040/2023") (td "vs")
                (td "Reliance Industries Limited") (td "15/03/2023")
                (td "Pending") eq_refl) as E.
  split; [exact E|]. exact (Hany sample_row _ E).
Defined.

(** ** Which cell gives which field *)

Section RowLoop.

Variable cells : list node.











End RowLoop.



(** * The matcher *)

Module ReFacts.

Import Re.

Lemma hd_error_in {A} (l : list A) (a : A) : hd_error l = Some a -> In a l.
Proof. destruct l; simpl; [discriminate|]. intros [= ->]. now left. Qed.

Lemma in_hd_error {A} (l : list A) (a : A) :
  In a l -> exists b, hd_error l = Some b.
Proof. destruct l; simpl; [tauto|]. intros _. now eexists. Qed.

(** ** What a candidate of an item is *)

Lemma rep_splits_sound (p : cclass) (s : text) :
  forall hi x r,
    In (x, r) (rep_splits p hi s) ->
    s = x ++ r /\ forallb p x = true
    /\ (forall h, hi = Some h -> List.length x <= h).
Proof.
  induction s as [|c s IH]; intros hi x r H; simpl in H.
  - destruct H as [[= <- <-]|[]]. repeat split. intros; simpl; lia.
  - assert (Hnil : (x, r) = ([], c :: s) ->
                   c :: s = x ++ r /\ forallb p x = true
                   /\ (forall h, hi = Some h -> List.length x <= h)).
    { intros [= -> ->]. repeat split. intros; simpl; lia. }
    destruct (dec_hi hi) as [hi'|] eqn:Ehi.
    + destruct (p c) eqn:Epc.
      * apply in_app_or in H. destruct H as [H|[H|[]]]; [|now apply Hnil].
        apply in_map_iff in H. destruct H as [[x' r'] [[= <- <-] H]].
        destruct (IH _ _ _ H) as (E & Hall & Hlen). simpl.
        rewrite Epc, Hall, E. repeat split.
        intros h ->. destruct h; simpl in Ehi; [discriminate|].
        injection Ehi as <-. specialize (Hlen h eq_refl). lia.
      * destruct H as [H|[]]. now apply Hnil.
    + destruct H as [H|[]]. now apply Hnil.
Qed.

Lemma rep_sound (p : cclass) (lo : nat) (hi : option nat) (s x r : text) :
  In (x, r) (match_item (Rep p lo hi) s) ->
  s = x ++ r /\ forallb p x = true /\ lo <= List.length x
  /\ (forall h, hi = Some h -> List.length x <= h).
Proof.
  simpl. intros H. apply filter_In in H. destruct H as [H Hlo].
  destruct (rep_splits_sound _ _ _ _ _ H) as (E & Hall & Hhi).
  simpl in Hlo. apply Nat.leb_le in Hlo. tauto.
Qed.

Lemma read_seq_sound (ps : list cclass) :
  forall s x r, read_seq ps s = Some (x, r) -> s = x ++ r.
Proof.
  induction ps as [|p ps IH]; intros s x r H; simpl in H.
  - now injection H as <- <-.
  - destruct s as [|c s]; [discriminate|].
    destruct (p c); [|discriminate].
    destruct (read_seq ps s) as [[x' r']|] eqn:E; [|discriminate].
    injection H as <- <-. simpl. now rewrite (IH _ _ _ E).
Qed.

Lemma eol_sound (s x r : text) :
  In (x, r) (match_item Eol s) ->
  x = [] /\ r = s /\ (s = [] \/ s = [newline]).
Proof.
  simpl. destruct s as [|c [|d s]]; simpl.
  - intros [[= <- <-]|[]]. tauto.
  - destruct (Ascii.eqb c newline) eqn:E; simpl; [|tauto].
    apply Ascii.eqb_eq in E. subst c. intros [[= <- <-]|[]]. tauto.
  - tauto.
Qed.

Lemma item_sound (it : item) (s x r : text) :
  In (x, r) (match_item it s) -> s = x ++ r.
Proof.
  destruct it as [p lo hi|alts|]; intros H.
  - now apply rep_sound in H.
  - simpl in H. apply in_flat_map in H. destruct H as [ps [_ H]].
    destruct (read_seq ps s) as [[x' r']|] eqn:E; [|destruct H].
    destruct H as [[= -> ->]|[]]. exact (read_seq_sound _ _ _ _ E).
  - apply eol_sound in H. destruct H as (-> & -> & _). reflexivity.
Qed.

(** ** Matches of a pattern, item by item *)

Lemma items_cons (it : item) (r : regex) (s : text) (m : list text * text) :
  In m (match_items (it :: r) s) <->
  exists x mid ps, m = (x :: ps, snd m)
                   /\ In (x, mid) (match_item it s)
                   /\ In (ps, snd m) (match_items r mid).
Proof.
  simpl. rewrite in_flat_map. split.
  - intros [[x mid] [Hx H]]. apply in_map_iff in H.
    destruct H as [[ps rest] [<- H]]. simpl in *. now exists x, mid, ps.
  - intros (x & mid & ps & E & Hx & H). exists (x, mid). split; [exact Hx|].
    apply in_map_iff. exists (ps, snd m). simpl. now rewrite <- E.
Qed.

Lemma items_sound (r : regex) :
  forall s m, In m (match_items r s) -> s = group0 m ++ snd m.
Proof.
  induction r as [|it r IH]; intros s m H.
  - destruct H as [<-|[]]. reflexivity.
  - apply items_cons in H. destruct H as (x & mid & ps & E & Hx & H).
    rewrite E. unfold group0. simpl.
    rewrite (item_sound _ _ _ _ Hx), (IH _ _ H). unfold group0. simpl.
    now rewrite app_assoc.
Qed.

Lemma items_app (r1 r2 : regex) :
  forall s m,
    In m (match_items (r1 ++ r2) s) <->
    exists ps1 mid ps2, m = (ps1 ++ ps2, snd m)
                        /\ In (ps1, mid) (match_items r1 s)
                        /\ In (ps2, snd m) (match_items r2 mid).
Proof.
  induction r1 as [|it r1 IH]; intros s m.
  - simpl. split.
    + intros H. exists [], s, (fst m). destruct m. simpl. auto.
    + intros (ps1 & mid & ps2 & E & [[= <- <-]|[]] & H2).
      rewrite E. exact H2.
  - rewrite <- app_comm_cons, items_cons. split.
    + intros (x & mid & ps & E & Hx & H). apply IH in H.
      destruct H as (ps1 & mid' & ps2 & E' & H1 & H2). simpl in *.
      injection E' as ->.
      exists (x :: ps1), mid', ps2. repeat split; [exact E| |exact H2].
      apply items_cons. now exists x, mid, ps1.
    + intros (ps1 & mid & ps2 & E & H1 & H2).
      apply items_cons in H1. destruct H1 as (x & mid' & ps1' & E1 & Hx & H1).
      simpl in *. injection E1 as ->.
      exists x, mid', (ps1' ++ ps2). repeat split; [exact E|exact Hx|].
      apply IH. now exists ps1', mid, ps2.
Qed.

(** The first item of a match, when it has to read something *)
Lemma first_char (p : cclass) (lo : nat) (hi : option nat) (r : regex)
  (s : text) (m : list text * text) :
  1 <= lo -> In m (match_items (Rep p lo hi :: r) s) ->
  exists c w, group0 m = c :: w /\ s = c :: w ++ snd m /\ p c = true.
Proof.
  intros Hlo H. pose proof (items_sound _ _ _ H) as Es.
  apply items_cons in H. destruct H as (x & mid & ps & E & Hx & H).
  apply rep_sound in Hx. destruct Hx as (_ & Hall & Hlen & _).
  destruct x as [|c x]; [simpl in Hlen; lia|].
  simpl in Hall. apply andb_prop in Hall.
  rewrite E in Es |- *. unfold group0 in *. simpl in *.
  exists c, (x ++ List.concat ps). repeat split; tauto.
Qed.

(** ** Patterns that match in one way only *)

Lemma same_length_prefix (x1 r1 x2 r2 : text) :
  x1 ++ r1 = x2 ++ r2 -> List.length x1 = List.length x2 ->
  x1 = x2 /\ r1 = r2.
Proof.
  revert x2. induction x1 as [|a x1 IH]; intros [|b x2] E L; simpl in *;
    try discriminate; [tauto|].
  injection E as -> E. injection L as L.
  destruct (IH _ E L) as [-> ->]. tauto.
Qed.

Lemma run_prefix (p : cclass) (x1 x2 : text) (c1 c2 : ascii) (t1 t2 : text) :
  forallb p x1 = true -> forallb p x2 = true ->
  p c1 = false -> p c2 = false ->
  x1 ++ c1 :: t1 = x2 ++ c2 :: t2 -> x1 = x2.
Proof.
  revert x2. induction x1 as [|a x1 IH]; intros [|b x2] H1 H2 N1 N2 E;
    simpl in *; try reflexivity.
  - injection E as -> _. apply andb_prop in H2. destruct H2. congruence.
  - injection E as -> _. apply andb_prop in H1. destruct H1. congruence.
  - injection E as -> E. apply andb_prop in H1, H2.
    f_equal. now apply IH.
Qed.

Lemma unambiguous_unique (r : regex) :
  unambiguous r ->
  forall s m1 m2,
    In m1 (match_items r s) -> In m2 (match_items r s) -> m1 = m2.
Proof.
  induction r as [|it r IH]; intros U s m1 m2 H1 H2.
  - destruct H1 as [<-|[]], H2 as [<-|[]]. reflexivity.
  - destruct it as [p lo hi|alts|]; [| destruct U |].
    + destruct U as [Hstop U].
      apply items_cons in H1, H2.
      destruct H1 as (x1 & mid1 & ps1 & E1 & Hx1 & H1).
      destruct H2 as (x2 & mid2 & ps2 & E2 & Hx2 & H2).
      pose proof (rep_sound _ _ _ _ _ _ Hx1) as (S1 & A1 & L1 & B1).
      pose proof (rep_sound _ _ _ _ _ _ Hx2) as (S2 & A2 & L2 & B2).
      assert (X : x1 = x2 /\ mid1 = mid2).
      { destruct Hstop as [->|Hstop].
        - apply same_length_prefix; [congruence|].
          specialize (B1 _ eq_refl). specialize (B2 _ eq_refl). lia.
        - destruct r as [|[q lo' hi'| |] r]; try (exfalso; exact Hstop).
          destruct Hstop as [Hlo' Hq].
          destruct (first_char _ _ _ _ _ _ Hlo' H1) as (c1 & w1 & _ & M1 & Q1).
          destruct (first_char _ _ _ _ _ _ Hlo' H2) as (c2 & w2 & _ & M2 & Q2).
          simpl in M1, M2.
          assert (x1 = x2).
          { apply (run_prefix p x1 x2 c1 c2 (w1 ++ snd m1) (w2 ++ snd m2));
              auto; congruence. }
          subst x2. split; [reflexivity|].
          rewrite S1 in S2. now apply app_inv_head in S2. }
      destruct X as [<- <-].
      pose proof (IH U _ _ _ H1 H2) as [= <- E].
      destruct m1, m2. simpl in *. congruence.
    + apply items_cons in H1, H2.
      destruct H1 as (x1 & mid1 & ps1 & E1 & Hx1 & H1).
      destruct H2 as (x2 & mid2 & ps2 & E2 & Hx2 & H2).
      apply eol_sound in Hx1, Hx2.
      destruct Hx1 as (-> & -> & _), Hx2 as (-> & -> & _).
      pose proof (IH U _ _ _ H1 H2) as [= <- E].
      destruct m1, m2. simpl in *. congruence.
Qed.

(** In such a pattern any match is the one the engine returns. *)
Lemma unambiguous_first (r : regex) (s : text) (m : list text * text) :
  unambiguous r -> In m (match_items r s) -> re_match r s = Some m.
Proof.
  intros U H. unfold re_match.
  destruct (in_hd_error _ _ H) as [b Hb]. rewrite Hb. f_equal.
  exact (unambiguous_unique r U s b m (hd_error_in _ _ Hb) H).
Qed.

Lemma relaxes_matches (r : regex) :
  forall r' s m,
    relaxes r r' -> In m (match_items r s) -> In m (match_items r' s).
Proof.
  induction r as [|it r IH]; intros [|it' r'] s m R H; simpl in R;
    try (destruct R; fail); [exact H | destruct it; destruct R |].
  destruct it as [p lo hi| |], it' as [p' lo' hi'| |]; try (destruct R; fail).
  - destruct R as (-> & Hlo & -> & R).
    apply items_cons in H. destruct H as (x & mid & ps & E & Hx & H).
    apply items_cons. exists x, mid, ps. repeat split; [exact E| |eauto].
    simpl in *. apply filter_In in Hx. apply filter_In.
    destruct Hx as [Hx Hl]. split; [exact Hx|].
    simpl in *. apply Nat.leb_le in Hl. apply Nat.leb_le. lia.
  - apply items_cons in H. destruct H as (x & mid & ps & E & Hx & H).
    apply items_cons. exists x, mid, ps. eauto.
Qed.

(** ** [findall] *)

Lemma findall_skip (r : regex) (s : text) :
  forall k, List.length s <= k -> findall_from r k s = [].
Proof.
  induction s as [|c s IH]; intros k H; simpl in *; [reflexivity|].
  destruct k; [lia|]. apply IH. lia.
Qed.

(** A match that covers the whole text is the only one found. *)
Lemma findall_whole (r : regex) (s : text) (m : list text * text) :
  s <> [] -> re_match r s = Some m -> group0 m = s -> findall r s = [s].
Proof.
  intros Hs Hm Hg. destruct s as [|c s]; [congruence|].
  unfold findall. simpl. rewrite Hm, Hg. f_equal.
  apply findall_skip. simpl. lia.
Qed.

(** Everything found is the text of a match somewhere. *)
Lemma findall_sound (r : regex) (s : text) :
  forall k x, In x (findall_from r k s) ->
              exists t m, re_match r t = Some m /\ x = group0 m.
Proof.
  induction s as [|c s IH]; intros k x H; simpl in H; [destruct H|].
  destruct k as [|k]; [|exact (IH _ _ H)].
  destruct (re_match r (c :: s)) as [m|] eqn:E; [|exact (IH _ _ H)].
  destruct H as [<-|H]; [now exists (c :: s), m | exact (IH _ _ H)].
Qed.

End ReFacts.

(** * The free-text scan and the alternative patterns of the parser *)

Lemma rstrip_head (c : ascii) (s : text) :
  isspace c = false -> exists t, rstrip (c :: s) = c :: t.
Proof.
  intros H. unfold rstrip. simpl.
  destruct (lstrip_snoc (rev s) c H) as [t ->].
  rewrite rev_app_distr. simpl. now eexists.
Qed.

Lemma strip_idempotent (s : text) : strip (strip s) = strip s.
Proof.
  destruct (strip s) as [|c u] eqn:E; [reflexivity|].
  assert (Hc : isspace c = false).
  { unfold strip in E. destruct (lstrip s) as [|d v] eqn:El;
      [discriminate|].
    pose proof (lstrip_head _ _ _ El) as Hd.
    destruct (rstrip_head d v Hd) as [t Ht]. congruence. }
  unfold strip. rewrite (lstrip_keeps _ _ Hc).
  destruct (exists_last (l := c :: u)) as (a & d & Ea); [discriminate|].
  rewrite Ea. apply rstrip_keeps.
  apply (strip_last s a d). congruence.
Qed.

(** Class facts, checked on every character *)
Ltac by_char :=
  let c := fresh "c" in
  intros c; destruct c as [[] [] [] [] [] [] [] []]; vm_compute;
  try reflexivity; intros; first [reflexivity | discriminate].

Lemma letter_not_space (c : ascii) :
  Re.icase_class Re.upper_or_dot c = true -> isspace c = false.
Proof. revert c. by_char. Qed.

Ltac one_way :=
  cbn;
  repeat match goal with
         | |- _ /\ _ => split
         | |- True => exact I
         | |- Some _ = Some _ \/ _ => left; reflexivity
         | |- _ \/ _ => right
         | |- 1 <= _ => lia
         | |- forall c : ascii, _ => by_char
         end.

Lemma case_patterns_one_way (pattern : Re.regex) :
  In pattern case_patterns -> Re.unambiguous (Re.icase pattern).
Proof.
  intros H. unfold case_patterns in H. each_member; one_way.
Qed.

Section Scan.

Import Re ReFacts.

Variables (pattern generic : regex) (html_content s : text).

Hypothesis Hpattern : In pattern case_patterns.
Hypothesis Hgeneric : relaxes (icase (pattern ++ [Eol])) (icase generic).
Hypothesis Hsome : re_match (icase pattern) [] = None.
Hypothesis Haccepts : re_match (icase (pattern ++ [Eol])) s <> None.
Hypothesis Hplain : plain_text html_content = s.

Lemma scan_generic_accepts : re_match (icase generic) s <> None.
Proof.
  destruct (re_match (icase (pattern ++ [Eol])) s) as [m|] eqn:E;
    [|congruence].
  apply hd_error_in in E. apply (relaxes_matches _ _ _ _ Hgeneric) in E.
  destruct (in_hd_error _ _ E) as [b Hb]. unfold re_match. congruence.
Qed.

Lemma scan_whole_match :
  exists ps, re_match (icase pattern) s = Some (ps, []) /\ List.concat ps = s.
Proof.
  destruct (re_match (icase (pattern ++ [Eol])) s) as [m|] eqn:E;
    [|congruence].
  apply hd_error_in in E. unfold icase in E. rewrite map_app in E.
  apply items_app in E. destruct E as (ps1 & mid & ps2 & _ & H1 & H2).
  apply items_cons in H2. destruct H2 as (x & mid' & ps & _ & Hx & _).
  apply eol_sound in Hx. destruct Hx as (_ & _ & Hmid).
  pose proof (items_sound _ _ _ H1) as Es. unfold group0 in Es. simpl in Es.
  assert (mid = []) as ->.
  { destruct Hmid as [->| ->]; [reflexivity|]. exfalso.
    rewrite <- Hplain in Es. unfold plain_text in Es.
    apply strip_last in Es. discriminate. }
  rewrite app_nil_r in Es. exists ps1. split; [|congruence].
  apply unambiguous_first; [|exact H1].
  exact (case_patterns_one_way _ Hpattern).
Qed.

Lemma scan_finds : In (text_case s) (_extract_from_text html_content).
Proof.
  destruct scan_whole_match as (ps & Hm & Hc).
  assert (Hs : s <> []).
  { intros ->. rewrite Hsome in Hm. discriminate. }
  unfold _extract_from_text. rewrite Hplain.
  apply in_flat_map. exists pattern. split; [exact Hpattern|].
  apply in_map.
  rewrite (findall_whole _ _ _ Hs Hm) by exact Hc. now left.
Qed.

Lemma scan_case_number : case_number (text_case s) = s.
Proof.
  simpl. rewrite <- Hplain. unfold plain_text. apply strip_idempotent.
Qed.

End Scan.

(** C2, as the code has it -- The patterns of the free-text scan are
    the three alternative patterns of the parser with every optional run
    of whitespace made mandatory, and without the anchors.  A string
    that one of them accepts when anchored is accepted by the parser's
    alternative pattern of the same rank; and when it is the plain text
    of a document, the scan of the document emits the minimal record of
    that string. *)
Theorem free_text_scan_finds (i : nat) (pattern : Re.regex)
  (html_content s : text) :
  nth_error case_patterns i = Some pattern ->
  Re.re_match (Re.icase (pattern ++ [Re.Eol])) s <> None ->
  plain_text html_content = s ->
  (exists g, nth_error patterns i = Some g
             /\ Re.re_match (Re.icase (fst g)) s <> None)
  /\ In (text_case s) (_extract_from_text html_content)
  /\ case_number (text_case s) = s.
Proof.
  intros Hi Hacc Hplain.
  assert (Hin : In pattern case_patterns) by exact (nth_error_In _ _ Hi).
  assert (Hg : exists g, nth_error patterns i = Some g
                         /\ Re.relaxes (Re.icase (pattern ++ [Re.Eol]))
                                       (Re.icase (fst g))
                         /\ Re.re_match (Re.icase pattern) [] = None).
  { destruct i as [|[|[|i]]]; simpl in Hi; try injection Hi as <-;
      try (destruct i; discriminate);
      (eexists; split; [reflexivity|]; split; [|reflexivity]);
      cbn; repeat split; lia. }
  destruct Hg as (g & Hg & Hrel & Hempty).
  split; [|split].
  - exists g. split; [exact Hg|].
    exact (scan_generic_accepts pattern (fst g) s Hrel Hacc).
  - exact (scan_finds pattern html_content s Hin Hempty Hacc Hplain).
  - exact (scan_case_number html_content s Hplain).
Qed.

Lemma free_text_scan_finds_witness :
  (exists g, nth_error patterns 0 = Some g
             /\ Re.re_match (Re.icase (fst g)) ("LPA 163/2023" : text) <> None)
  /\ In (text_case "LPA 163/2023")
        (_extract_from_text "<td>LPA 163/2023</td>")
  /\ case_number (text_case "LPA 163/2023") = ("LPA 163/2023" : text).
Proof.
  apply (free_text_scan_finds 0
           [Re.plus Re.upper_or_dot; Re.plus isspace; Re.plus isdigit;
            Re.lit "/"; Re.times 4 isdigit]
           ("<td>LPA 163/2023</td>" : text) ("LPA 163/2023" : text)).
  - reflexivity.
  - vm_compute. discriminate.
  - vm_compute. reflexivity.
Defined.

(** C2, as stated, fails -- "ABC163/2023" is accepted by the first
    alternative pattern of the parser, which lets the digits follow the
    letters directly; it is the plain text of a document, and the scan of
    that document finds nothing. *)
Lemma free_text_scan_counterexample :
  (exists g, nth_error patterns 0 = Some g
             /\ Re.re_match (Re.icase (fst g)) ("ABC163/2023" : text) <> None)
  /\ _parse_case_number "ABC163/2023"
     = Some {| pc_case_type := "ABC"; pc_number := "163"; pc_year := "2023" |}
  /\ plain_text "<td>ABC163/2023</td>" = ("ABC163/2023" : text)
  /\ _extract_from_text "<td>ABC163/2023</td>" = [].
Proof.
  split; [|repeat split; reflexivity].
  eexists. split; [reflexivity|]. vm_compute. discriminate.
Qed.

(** * Records have a case number *)

Lemma row_needs_case_number (cells rest : list node) (vars : row_vars) (i : nat) :
  truthy (v_case_number vars) = false ->
  (forall c, In c rest -> Re.re_search row_case_re (get_text c) = None) ->
  truthy (v_case_number (row_loop cells vars i rest)) = false.
Proof.
  revert vars i. induction rest as [|cell rest IH]; intros vars i Hv H; simpl;
    [exact Hv|].
  apply IH; [|intros c Hc; apply H; now right].
  unfold row_step, branch_of. rewrite Hv, (H cell (or_introl eq_refl)). simpl.
  repeat match goal with
         | |- context [if ?b then _ else _] => destruct b
         | |- context [match ?o with Some _ => _ | None => _ end] => destruct o
         end; exact Hv.
Qed.

Lemma row_case_number (cells : list node) (r : CaseRecord) :
  _extract_case_from_row cells = Some r -> case_number r <> [].
Proof.
  unfold _extract_case_from_row.
  destruct (truthy _) eqn:T; [|discriminate].
  intros [= <-]. simpl. now apply truthy_or_default.
Qed.

Lemma element_case_number (element : node) (r : CaseRecord) :
  _extract_case_data element = Some r -> case_number r <> [].
Proof.
  unfold _extract_case_data.
  destruct (truthy _) eqn:T; [|discriminate].
  intros [= <-]. simpl. now apply truthy_or_default.
Qed.

Lemma text_case_number (html_content : text) (r : CaseRecord) :
  In r (_extract_from_text html_content) -> case_number r <> [].
Proof.
  unfold _extract_from_text. intros H.
  apply in_flat_map in H. destruct H as (pattern & Hp & H).
  apply in_map_iff in H. destruct H as (x & <- & H).
  apply ReFacts.findall_sound in H. destruct H as (t & m & Hm & ->).
  apply ReFacts.hd_error_in in Hm.
  assert (F : exists c w, Re.group0 m = c :: w
                          /\ Re.icase_class Re.upper_or_dot c = true).
  { unfold case_patterns in Hp. each_member;
      destruct (ReFacts.first_char _ _ _ _ _ _ (le_n 1) Hm)
        as (c & w & E & _ & Hc); now exists c, w. }
  destruct F as (c & w & -> & Hc). simpl.
  apply strip_nonempty. now apply letter_not_space.
Qed.

Lemma table_case_number (soup : list node) (r : CaseRecord) :
  In r (table_cases soup) -> case_number r <> [].
Proof.
  unfold table_cases. intros H.
  apply in_flat_map in H. destruct H as (table & _ & H).
  apply in_flat_map in H. destruct H as (row & _ & H).
  destruct (3 <=? _); [|destruct H].
  destruct (_extract_case_from_row _) as [r'|] eqn:E; [|destruct H].
  destruct H as [<-|[]]. exact (row_case_number _ _ E).
Qed.

Lemma divs_case_number (soup : list node) (r : CaseRecord) :
  In r (_extract_from_divs soup) -> case_number r <> [].
Proof.
  unfold _extract_from_divs. intros H.
  apply in_flat_map in H. destruct H as (div & _ & H).
  destruct (_extract_case_data div) as [r'|] eqn:E; [|destruct H].
  destruct H as [<-|[]]. exact (element_case_number _ _ E).
Qed.

(** C8 -- Every record of the table-row, classed-element and free-text
    extraction, hence every record [_parse_search_results] returns, has
    a case number that is not empty; a row in which no cell matches the
    case-number pattern, and an element in which no case number is
    found, give no record. *)
Theorem records_have_case_number :
  (forall soup html_content r,
      In r (table_cases soup) \/ In r (_extract_from_divs soup)
      \/ In r (_extract_from_text html_content)
      \/ In r (_parse_search_results soup html_content) ->
      case_number r <> [])
  /\ (forall cells,
         (forall c, In c cells ->
                    Re.re_search row_case_re (get_text c) = None) ->
         _extract_case_from_row cells = None)
  /\ (forall element,
         truthy (_extract_text element
                   ["case-number" : text; "case_no" : text;
                    "case_number" : text]) = false ->
         _extract_case_data element = None).
Proof.
  split; [|split].
  - intros soup html_content r [H|[H|[H|H]]].
    + exact (table_case_number _ _ H).
    + exact (divs_case_number _ _ H).
    + exact (text_case_number _ _ H).
    + unfold _parse_search_results, parse_run in H.
      destruct (has_captcha html_content); [destruct H|].
      destruct (table_cases soup) eqn:Et.
      * destruct (_extract_from_text html_content) eqn:Ex.
        -- exact (divs_case_number _ _ H).
        -- apply (text_case_number html_content). now rewrite Ex.
      * apply (table_case_number soup). now rewrite Et.
  - intros cells H. unfold _extract_case_from_row.
    now rewrite (row_needs_case_number cells cells row_init 0 eq_refl H).
  - intros element H. unfold _extract_case_data. now rewrite H.
Qed.

Lemma records_have_case_number_witness :
  (forall r, In r (_parse_search_results classed_soup
                     (soup_markup classed_soup)) -> case_number r <> [])
  /\ _extract_case_from_row [td "Pending"; td "vs"; td "LPA 163/2023"] = None
  /\ _extract_case_data (Tag "div" [("class" : text, "row" : text)]
                           [NavigableString "LPA 163/2023"]) = None.
Proof.
  destruct records_have_case_number as (Hall & Hrow & Hel).
  split; [|split].
  - intros r H.
    apply (Hall classed_soup (soup_markup classed_soup) r).
    right. right. right. exact H.
  - apply Hrow. intros c Hc. each_member; vm_compute; reflexivity.
  - apply Hel. vm_compute. reflexivity.
Defined.

(** * The date normalizer *)

Section Dates.

Import Strptime.

Local Open Scope N_scope.

Ltac digit_cases n :=
  let k := fresh "k" in
  let Hk := fresh "Hk" in
  let Hc := fresh "Hc" in
  unfold digit_char;
  assert (Hk : n mod 10 < 10) by (apply N.mod_lt; discriminate);
  generalize dependent (n mod 10); intros k Hk;
  assert (Hc : k = 0 \/ k = 1 \/ k = 2 \/ k = 3 \/ k = 4 \/ k = 5 \/ k = 6
               \/ k = 7 \/ k = 8 \/ k = 9) by lia;
  clear Hk;
  repeat (destruct Hc as [Hc|Hc]; [subst k|]); [..|subst k].

Lemma digit_char_digit (n : N) : isdigit (digit_char n) = true.
Proof. digit_cases n; reflexivity. Qed.

Lemma digit_char_not_space (n : N) : isspace (digit_char n) = false.
Proof. digit_cases n; reflexivity. Qed.

Lemma digit_char_value (n : N) : digit_value (digit_char n) = n mod 10.
Proof.
  unfold digit_value, digit_char.
  assert (Hk : n mod 10 < 10) by (apply N.mod_lt; discriminate).
  generalize dependent (n mod 10). intros k Hk.
  rewrite N_ascii_embedding by lia. lia.
Qed.

(** The digits a month and a day of the month are written with *)
Lemma digit_char_in (n : N) :
  In (digit_char n)
     ["0"; "1"; "2"; "3"; "4"; "5"; "6"; "7"; "8"; "9"]%char.
Proof. digit_cases n; simpl; tauto. Qed.

Lemma strip_two (a b : ascii) :
  isspace a = false -> isspace b = false -> strip [a; b] = [a; b].
Proof.
  intros Ha Hb. unfold strip, rstrip. simpl. rewrite Ha. simpl.
  now rewrite Hb.
Qed.

Lemma strip_four (a b c d : ascii) :
  isspace a = false -> isspace d = false -> strip [a; b; c; d] = [a; b; c; d].
Proof.
  intros Ha Hd. unfold strip, rstrip. simpl. rewrite Ha. simpl.
  now rewrite Hd.
Qed.

Lemma int_pad2 (n : N) : n < 100 -> int (pad2 n) = n.
Proof.
  intros H. unfold int, pad2.
  rewrite strip_two by apply digit_char_not_space.
  cbn [fold_left]. rewrite !digit_char_value.
  zify; Z.to_euclidean_division_equations; lia.
Qed.

Lemma int_pad4 (n : N) : n < 10000 -> int (pad4 n) = n.
Proof.
  intros H. unfold int, pad4.
  rewrite strip_four by apply digit_char_not_space.
  cbn [fold_left]. rewrite !digit_char_value.
  zify; Z.to_euclidean_division_equations; lia.
Qed.

Lemma strip_strftime (d : date) : strip (strftime d) = strftime d.
Proof.
  unfold strftime, year_text, pad4, pad2.
  destruct (year d <? 10); [|destruct (year d <? 100);
                             [|destruct (year d <? 1000)]];
    unfold strip, rstrip; simpl;
    rewrite !digit_char_not_space; simpl;
    now rewrite !digit_char_not_space.
Qed.

(** From the year 1000 on, [%Y] gives four digits. *)
Lemma year_text_four (y : N) : 1000 <= y -> year_text y = pad4 y.
Proof.
  intros H. unfold year_text.
  destruct (y <? 10) eqn:E1; [apply N.ltb_lt in E1; lia|].
  destruct (y <? 100) eqn:E2; [apply N.ltb_lt in E2; lia|].
  destruct (y <? 1000) eqn:E3; [apply N.ltb_lt in E3; lia|]. reflexivity.
Qed.

Lemma strftime_iso (d : date) :
  1000 <= year d -> is_iso_date (strftime d) = true.
Proof.
  intros H. unfold strftime. rewrite (year_text_four _ H).
  unfold pad4, pad2. simpl. now rewrite !digit_char_digit.
Qed.

(** A result of the form YYYY-MM-DD has a year from 1000 on. *)
Lemma iso_year (d : date) : is_iso_date (strftime d) = true -> 1000 <= year d.
Proof.
  unfold strftime, year_text, pad2.
  destruct (year d <? 10); [discriminate|].
  destruct (year d <? 100); [discriminate|].
  destruct (year d <? 1000) eqn:E; [discriminate|].
  intros _. now apply N.ltb_ge.
Qed.

Lemma strptime_valid (s : text) (fmt : list directive) (d : date) :
  strptime s fmt = Some d -> valid d = true.
Proof.
  unfold strptime. destruct (Re.re_match _ s) as [m|]; [|discriminate].
  destruct (snd m); [|discriminate].
  destruct (valid _) eqn:V; [|discriminate]. now intros [= <-].
Qed.

(** ** The loop over the formats *)

Lemma try_formats_first (pre : list (list directive)) (fmt : list directive)
  (post : list (list directive)) (s : text) (d : date) :
  (forall f, In f pre -> strptime s f = None) ->
  strptime s fmt = Some d ->
  try_formats (pre ++ fmt :: post) s = Some (strftime d).
Proof.
  intros Hpre Hfmt. induction pre as [|f pre IH]; simpl.
  - now rewrite Hfmt.
  - rewrite (Hpre f (or_introl eq_refl)). apply IH.
    intros f' Hf'. apply Hpre. now right.
Qed.

Lemma try_formats_none (fmts : list (list directive)) (s : text) :
  (forall f, In f fmts -> strptime s f = None) -> try_formats fmts s = None.
Proof.
  induction fmts as [|f fmts IH]; intros H; simpl; [reflexivity|].
  rewrite (H f (or_introl eq_refl)). apply IH.
  intros f' Hf'. apply H. now right.
Qed.

Lemma try_formats_result (fmts : list (list directive)) (s r : text) :
  try_formats fmts s = Some r ->
  exists fmt d, In fmt fmts /\ strptime s fmt = Some d /\ r = strftime d.
Proof.
  induction fmts as [|f fmts IH]; simpl; [discriminate|].
  destruct (strptime s f) as [d|] eqn:E.
  - intros [= <-]. exists f, d. tauto.
  - intros H. destruct (IH H) as (fmt & d & Hin & Hd & Hr).
    exists fmt, d. tauto.
Qed.

Lemma parse_date_result (x : option text) (r : text) :
  _parse_date x = Some r -> exists d, valid d = true /\ r = strftime d.
Proof.
  destruct x as [[|c s]|]; try discriminate.
  unfold _parse_date. intros H. apply try_formats_result in H.
  destruct H as (fmt & d & _ & Hd & ->).
  exists d. split; [exact (strptime_valid _ _ _ Hd) | reflexivity].
Qed.

End Dates.

(** C5 -- [_parse_date] is documented to return the date in the form
    YYYY-MM-DD, and the claim says its output always has that form.  For
    "01/01/0999" the first format parses, to the first of January of the
    year 999, and the result is "999-01-01": [%Y] writes a year below
    1000 without padding. *)
Theorem parse_date_short_year :
  strptime (strip "01/01/0999") [Dd; Sep "/"; Dm; Sep "/"; DY]
  = Some {| year := 999; month := 1; day := 1 |}
  /\ _parse_date (Some ("01/01/0999" : text)) = Some ("999-01-01" : text)
  /\ is_iso_date "999-01-01" = false.
Proof. repeat split; vm_compute; reflexivity. Qed.

(** ** A result with a year of four digits parses back to the same date *)

Section Reparse.

Import Strptime.

Local Open Scope N_scope.

Lemma rep_splits_zero (p : Re.cclass) (s : text) :
  Re.rep_splits p (Some 0%nat) s = [([], s)].
Proof. destruct s; reflexivity. Qed.

Lemma year_item (a b c d : ascii) (rest : text) :
  isdigit a = true -> isdigit b = true -> isdigit c = true -> isdigit d = true ->
  Re.match_item (Re.icase_item (item_of DY)) (a :: b :: c :: d :: rest)
  = [([a; b; c; d], rest)].
Proof.
  intros Ha Hb Hc Hd. simpl. unfold Re.icase_class.
  rewrite Ha, Hb, Hc, Hd. simpl. rewrite rep_splits_zero. reflexivity.
Qed.

Lemma day_first_fails (a b c : ascii) (rest : text) (sep : ascii) :
  In a ["0"; "1"; "2"; "3"; "4"; "5"; "6"; "7"; "8"; "9"]%char ->
  In b ["0"; "1"; "2"; "3"; "4"; "5"; "6"; "7"; "8"; "9"]%char ->
  In c ["0"; "1"; "2"; "3"; "4"; "5"; "6"; "7"; "8"; "9"]%char ->
  sep = "/"%char \/ sep = "-"%char ->
  strptime (a :: b :: c :: rest) [Dd; Sep sep; Dm; Sep sep; DY] = None.
Proof.
  intros Ha Hb Hc [-> | ->].
  all: each_member; vm_compute; reflexivity.
Qed.

Lemma tail_match (m dd : N) :
  1 <= m <= 12 -> 1 <= dd <= 31 ->
  hd_error (Re.match_items (Re.icase (map item_of [Sep "-"; Dm; Sep "-"; Dd]))
              ("-"%char :: pad2 m ++ "-"%char :: pad2 dd))
  = Some ([["-"%char]; pad2 m; ["-"%char]; pad2 dd], []).
Proof.
  intros Hm Hd.
  assert (Cm : m = 1 \/ m = 2 \/ m = 3 \/ m = 4 \/ m = 5 \/ m = 6 \/ m = 7
               \/ m = 8 \/ m = 9 \/ m = 10 \/ m = 11 \/ m = 12) by lia.
  assert (Cd : dd = 1 \/ dd = 2 \/ dd = 3 \/ dd = 4 \/ dd = 5 \/ dd = 6
               \/ dd = 7 \/ dd = 8 \/ dd = 9 \/ dd = 10 \/ dd = 11 \/ dd = 12
               \/ dd = 13 \/ dd = 14 \/ dd = 15 \/ dd = 16 \/ dd = 17
               \/ dd = 18 \/ dd = 19 \/ dd = 20 \/ dd = 21 \/ dd = 22
               \/ dd = 23 \/ dd = 24 \/ dd = 25 \/ dd = 26 \/ dd = 27
               \/ dd = 28 \/ dd = 29 \/ dd = 30 \/ dd = 31) by lia.
  clear Hm Hd.
  repeat (destruct Cm as [Cm|Cm]; [subst m|]); [..|subst m];
    (repeat (destruct Cd as [Cd|Cd]; [subst dd|]); [..|subst dd]);
    vm_compute; reflexivity.
Qed.

Lemma match_items_step (it : Re.item) (r : Re.regex) (s : text) :
  Re.match_items (it :: r) s
  = flat_map (fun xr => map (fun m => (fst xr :: fst m, snd m))
                            (Re.match_items r (snd xr)))
             (Re.match_item it s).
Proof. reflexivity. Qed.

Lemma hd_error_map {A B} (f : A -> B) (l : list A) :
  hd_error (map f l) = option_map f (hd_error l).
Proof. destruct l; reflexivity. Qed.

Lemma days_in_month_le (y m : N) : days_in_month y m <= 31.
Proof.
  unfold days_in_month.
  repeat match goal with
         | |- context [match ?x with _ => _ end] => destruct x
         end; lia.
Qed.

Lemma strptime_strftime (d : date) :
  valid d = true -> 1000 <= year d ->
  strptime (strftime d) [DY; Sep "-"; Dm; Sep "-"; Dd] = Some d.
Proof.
  destruct d as [y m dd]. intros V Hy. cbn [year] in Hy.
  pose proof V as V'. unfold valid in V'. cbn [year month day] in V'.
  repeat (apply andb_prop in V'; destruct V' as [V' ?]).
  repeat match goal with
         | H : (_ <=? _) = true |- _ => apply N.leb_le in H
         end.
  pose proof (days_in_month_le y m).
  unfold strptime, Re.re_match, strftime. cbn [year month day].
  rewrite (year_text_four y Hy).
  change (pad4 y ++ ("-" : text) ++ pad2 m ++ ("-" : text) ++ pad2 dd)
    with (digit_char (y / 1000) :: digit_char (y / 100) :: digit_char (y / 10)
          :: digit_char y :: "-"%char :: pad2 m ++ "-"%char :: pad2 dd).
  change (Re.icase (map item_of [DY; Sep "-"; Dm; Sep "-"; Dd]))
    with (Re.icase_item (item_of DY)
          :: Re.icase (map item_of [Sep "-"; Dm; Sep "-"; Dd])).
  rewrite match_items_step, year_item by apply digit_char_digit.
  cbn [flat_map fst snd]. rewrite app_nil_r, hd_error_map, tail_match by lia.
  cbn [option_map fst snd set_fields set_field year month day].
  change [digit_char (y / 1000); digit_char (y / 100); digit_char (y / 10);
          digit_char y] with (pad4 y).
  rewrite int_pad4, !int_pad2 by lia. now rewrite V.
Qed.

Lemma strftime_reparses (d : date) :
  valid d = true -> 1000 <= year d ->
  try_formats date_formats (strip (strftime d)) = Some (strftime d).
Proof.
  intros V Hy. rewrite strip_strftime.
  apply (try_formats_first [[Dd; Sep "/"; Dm; Sep "/"; DY];
                            [Dd; Sep "-"; Dm; Sep "-"; DY]]).
  - intros f Hf. unfold strftime. rewrite (year_text_four _ Hy).
    each_member.
    + apply day_first_fails; try apply digit_char_in. now left.
    + apply day_first_fails; try apply digit_char_in. now right.
  - now apply strptime_strftime.
Qed.

End Reparse.

(** C6 -- The claim says the normalizer is idempotent on its own
    output, the output being of the documented form YYYY-MM-DD.  For a
    year below 1000 the output is not of that form and is not read back
    as the same date: "01/05/0012" gives "12-05-01", which is read as the
    twelfth of May 2001; "01/01/0999" gives "999-01-01", which no format
    reads. *)
Theorem parse_date_not_idempotent :
  _parse_date (Some ("01/05/0012" : text)) = Some ("12-05-01" : text)
  /\ _parse_date (_parse_date (Some ("01/05/0012" : text)))
     = Some ("2001-05-12" : text)
  /\ _parse_date (Some ("01/01/0999" : text)) = Some ("999-01-01" : text)
  /\ _parse_date (_parse_date (Some ("01/01/0999" : text))) = None.
Proof. repeat split; vm_compute; reflexivity. Qed.

(** * The mock search and the details of a case *)

Lemma filter_length_le {A} (f : A -> bool) (l : list A) :
  List.length (filter f l) <= List.length l.
Proof.
  induction l as [|a l IH]; simpl; [lia|]. destruct (f a); simpl; lia.
Qed.

Lemma search_cases_filter (case_number party_name : text) :
  search_cases case_number party_name
  = filter (spec_includes case_number party_name) mock_cases.
Proof.
  unfold search_cases, _get_mock_cases. rewrite filter_cases_spec.
  rewrite firstn_all2
    by (pose proof (filter_length_le (spec_includes case_number party_name)
                      mock_cases) as L; simpl in L; exact L).
  destruct (filter _ mock_cases); reflexivity.
Qed.

(** X1 -- With a case number and a party name both given, the mock
    search returns the records that match either: exactly those the
    search by the case number alone or the search by the party name alone
    returns. *)
Theorem search_cases_either (case_number party_name : text) (r : CaseRecord) :
  case_number <> [] -> party_name <> [] ->
  (In r (search_cases case_number party_name)
   <-> In r (search_cases case_number [])
       \/ In r (search_cases [] party_name)).
Proof.
  intros Hc Hp. rewrite !search_cases_filter, !filter_In.
  unfold spec_includes.
  destruct case_number as [|a cn]; [congruence|].
  destruct party_name as [|b pn]; [congruence|].
  cbn [nonempty negb andb].
  destruct (spec_case_insensitive_substring (a :: cn) (Case.case_number r));
    [tauto|].
  destruct (spec_case_insensitive_substring (b :: pn) (petitioner r)
            || spec_case_insensitive_substring (petitioner r) (b :: pn)
            || spec_case_insensitive_substring (b :: pn) (respondent r)
            || spec_case_insensitive_substring (respondent r) (b :: pn));
    simpl; tauto.
Qed.

Lemma search_cases_either_witness :
  In (nth 1 mock_cases busy_record) (search_cases "LPA" "john")
  <-> In (nth 1 mock_cases busy_record) (search_cases "LPA" [])
      \/ In (nth 1 mock_cases busy_record) (search_cases [] "john").
Proof.
  apply (search_cases_either "LPA" "john"); discriminate.
Defined.

(** X2 -- The details returned for a case number that is not empty are
    those of a mock record whose case number contains it, letter case
    aside; none are returned exactly when no mock record does. *)
Theorem get_case_details_matches (case_number : text) :
  case_number <> [] ->
  (forall r, get_case_details case_number = Some r ->
             In r mock_cases
             /\ contains (lower case_number) (lower (Case.case_number r)) = true)
  /\ (get_case_details case_number = None <->
      forall r, In r mock_cases ->
                contains (lower case_number) (lower (Case.case_number r)) = false).
Proof.
  intros Hc. unfold get_case_details. rewrite search_cases_filter.
  assert (E : forall r, spec_includes case_number [] r
                        = contains (lower case_number) (lower (Case.case_number r))).
  { intros r. unfold spec_includes, spec_case_insensitive_substring.
    destruct case_number; [congruence|]. simpl.
    destruct (contains _ _); reflexivity. }
  split.
  - intros r H.
    destruct (filter _ mock_cases) as [|c l] eqn:F; [discriminate|].
    injection H as ->.
    assert (I : In r (filter (spec_includes case_number []) mock_cases))
      by (rewrite F; now left).
    apply filter_In in I. now rewrite E in I.
  - destruct (filter _ mock_cases) as [|c l] eqn:F.
    + split; [|reflexivity]. intros _ r Hr.
      destruct (contains _ _) eqn:C; [|reflexivity].
      assert (I : In r (filter (spec_includes case_number []) mock_cases))
        by (apply filter_In; now rewrite E).
      rewrite F in I. destruct I.
    + split; [discriminate|]. intros H.
      assert (I : In c (filter (spec_includes case_number []) mock_cases))
        by (rewrite F; now left).
      apply filter_In in I. destruct I as [I1 I2].
      rewrite E, (H c I1) in I2. discriminate.
Qed.

Lemma get_case_details_matches_witness :
  (forall r, get_case_details "fao" = Some r ->
             In r mock_cases
             /\ contains (lower "fao") (lower (Case.case_number r)) = true)
  /\ (get_case_details "fao" = None <->
      forall r, In r mock_cases ->
                contains (lower "fao") (lower (Case.case_number r)) = false).
Proof.
  apply (get_case_details_matches "fao"). discriminate.
Defined.

(** * Fields of a classed element *)

Lemma extract_text_first (element : node) (pre : list text) (name : text)
  (post : list text) (found : node) :
  (forall n, In n pre -> find_class n element = None) ->
  find_class name element = Some found ->
  _extract_text element (pre ++ name :: post) = Some (get_text found).
Proof.
  intros Hpre Hname. induction pre as [|n pre IH]; simpl.
  - now rewrite Hname.
  - rewrite (Hpre n (or_introl eq_refl)). apply IH.
    intros m Hm. apply Hpre. now right.
Qed.

(** X3 -- A field of a classed element is read from the first class
    name, in the order of the list, that some element below carries,
    whatever the text of that element; so an element classed
    "case-number" that has no text makes the block give no record, also
    when an element classed "case_no" or "case_number" has one. *)
Theorem first_alias_decides (element : node) :
  (forall pre name post found,
      (forall n, In n pre -> find_class n element = None) ->
      find_class name element = Some found ->
      _extract_text element (pre ++ name :: post) = Some (get_text found))
  /\ (forall found,
         find_class "case-number" element = Some found ->
         get_text found = [] ->
         _extract_case_data element = None).
Proof.
  split.
  - intros pre name post found. apply extract_text_first.
  - intros found Hf Ht. unfold _extract_case_data.
    pose proof (extract_text_first element [] "case-number"
                  ["case_no" : text; "case_number" : text] found) as E.
    cbn [app] in E. rewrite E; [now rewrite Ht | intros n [] | exact Hf].
Qed.

Lemma first_alias_decides_witness :
  _extract_text empty_alias_block
    ([] ++ ("case-number" : text) :: ["case_no" : text; "case_number" : text])
  = Some (get_text (Tag "span" [("class" : text, "case-number" : text)] []))
  /\ _extract_case_data empty_alias_block = None.
Proof.
  destruct (first_alias_decides empty_alias_block) as [H1 H2]. split.
  - apply H1; [intros n []|]. vm_compute. reflexivity.
  - apply (H2 (Tag "span" [("class" : text, "case-number" : text)] []));
      vm_compute; reflexivity.
Defined.

(** * The case type of a case number *)

Lemma solid_app (a b : text) : solid a -> solid b -> solid (a ++ b).
Proof. unfold solid. rewrite forallb_app. intros -> ->. reflexivity. Qed.

Lemma solid_rev (a : text) : solid a -> solid (rev a).
Proof.
  unfold solid. rewrite !forallb_forall. intros H c Hc.
  apply H. now apply in_rev.
Qed.

Lemma solid_cons (c : ascii) (a : text) :
  solid (c :: a) <-> isspace c = false /\ solid a.
Proof.
  unfold solid. simpl. rewrite andb_true_iff, negb_true_iff. tauto.
Qed.

(** The parts [split] returns have no whitespace and are not empty. *)
Lemma split_from_parts (s : text) :
  forall cur t, solid cur -> In t (split_from cur s) -> t <> [] /\ solid t.
Proof.
  induction s as [|c s IH]; intros cur t Hcur H; simpl in H.
  - destruct cur as [|a cur]; [destruct H|].
    destruct H as [<-|[]]. split; [|now apply solid_rev].
    simpl. intros E. now apply app_eq_nil in E.
  - destruct (isspace c) eqn:Ec.
    + destruct cur as [|a cur]; [exact (IH [] t eq_refl H)|].
      destruct H as [<-|H]; [|exact (IH [] t eq_refl H)].
      split; [|now apply solid_rev].
      simpl. intros E. now apply app_eq_nil in E.
    + apply (IH (c :: cur) t); [|exact H].
      apply solid_cons. tauto.
Qed.

(** A run without whitespace is read into the part at hand. *)
Lemma split_from_run (run : text) :
  forall cur s, solid run ->
                split_from cur (run ++ s) = split_from (rev run ++ cur) s.
Proof.
  induction run as [|c run IH]; intros cur s H; [reflexivity|].
  apply solid_cons in H. destruct H as [Hc H]. simpl. rewrite Hc.
  rewrite (IH (c :: cur) s H), <- app_assoc. reflexivity.
Qed.

Lemma split_solid (t : text) : t <> [] -> solid t -> split t = [t].
Proof.
  intros Ht H. unfold split.
  rewrite <- (app_nil_r t) at 1. rewrite (split_from_run t [] [] H).
  rewrite app_nil_r. simpl.
  destruct (rev t) eqn:E.
  - apply (f_equal (@rev ascii)) in E. rewrite rev_involutive in E.
    simpl in E. congruence.
  - rewrite <- E, rev_involutive. reflexivity.
Qed.

Lemma split_first (run : text) (c : ascii) (s : text) :
  run <> [] -> solid run -> isspace c = true ->
  split (run ++ c :: s) = run :: split s.
Proof.
  intros Hr H Hc. unfold split. rewrite (split_from_run run [] _ H).
  rewrite app_nil_r. simpl. rewrite Hc.
  destruct (rev run) eqn:E.
  - apply (f_equal (@rev ascii)) in E. rewrite rev_involutive in E.
    simpl in E. congruence.
  - rewrite <- E, rev_involutive. reflexivity.
Qed.

(** X4 -- The case type read off a case number is never empty and has
    no whitespace, and reading the case type of a case type gives it
    back. *)
Theorem case_type_is_a_word (case_number : text) :
  _extract_case_type case_number <> []
  /\ solid (_extract_case_type case_number)
  /\ _extract_case_type (_extract_case_type case_number)
     = _extract_case_type case_number.
Proof.
  assert (W : forall t : text, t <> [] -> solid t -> _extract_case_type t = t).
  { intros t Ht H. unfold _extract_case_type.
    destruct t; [congruence|]. now rewrite split_solid. }
  assert (P : _extract_case_type case_number <> []
              /\ solid (_extract_case_type case_number)).
  { unfold _extract_case_type. destruct case_number as [|c s].
    - split; [discriminate|reflexivity].
    - destruct (split (c :: s)) as [|part parts] eqn:E.
      + split; [discriminate|reflexivity].
      + apply (split_from_parts (c :: s) [] part eq_refl).
        unfold split in E. rewrite E. now left. }
  destruct P as [P1 P2]. repeat split; try assumption. now apply W.
Qed.

(** * More on the matcher *)

Module ReMore.

Import Re ReFacts.

Lemma items_cons_inv (it : item) (r : regex) (s : text) (ps : list text)
  (rest : text) :
  In (ps, rest) (match_items (it :: r) s) ->
  exists x mid ps', ps = x :: ps' /\ In (x, mid) (match_item it s)
                    /\ In (ps', rest) (match_items r mid).
Proof.
  intros H. apply items_cons in H. destruct H as (x & mid & ps' & E & Hx & H).
  simpl in *. injection E as ->. now exists x, mid, ps'.
Qed.

Lemma items_nil_inv (s : text) (ps : list text) (rest : text) :
  In (ps, rest) (match_items [] s) -> ps = [] /\ rest = s.
Proof. intros [[= <- <-]|[]]. tauto. Qed.

Lemma items_cons_intro (it : item) (r : regex) (s x mid : text)
  (ps : list text) (rest : text) :
  In (x, mid) (match_item it s) -> In (ps, rest) (match_items r mid) ->
  In (x :: ps, rest) (match_items (it :: r) s).
Proof.
  intros Hx H. apply items_cons. exists x, mid, ps. simpl. tauto.
Qed.

Lemma items_app_intro (r1 r2 : regex) (s mid : text) (ps1 ps2 : list text)
  (rest : text) :
  In (ps1, mid) (match_items r1 s) -> In (ps2, rest) (match_items r2 mid) ->
  In (ps1 ++ ps2, rest) (match_items (r1 ++ r2) s).
Proof.
  intros H1 H2. apply items_app. exists ps1, mid, ps2. simpl. tauto.
Qed.

(** Every run of the class within the bounds is a candidate. *)
Lemma rep_splits_complete (p : cclass) (x r : text) :
  forall hi,
    forallb p x = true ->
    (forall h, hi = Some h -> List.length x <= h) ->
    In (x, r) (rep_splits p hi (x ++ r)).
Proof.
  induction x as [|a x IH]; intros hi Hall Hhi; simpl.
  - destruct r as [|c r]; simpl; [now left|].
    destruct (dec_hi hi); simpl; [|now left].
    destruct (p c); simpl; [|now left].
    apply in_or_app. right. now left.
  - simpl in Hall. apply andb_prop in Hall. destruct Hall as [Ha Hall].
    destruct hi as [[|h]|]; simpl.
    + specialize (Hhi 0 eq_refl). simpl in Hhi. lia.
    + rewrite Ha. apply in_or_app. left.
      apply in_map_iff. exists (x, r). split; [reflexivity|].
      apply IH; [exact Hall|]. intros h' [= <-].
      specialize (Hhi (S h) eq_refl). simpl in Hhi. lia.
    + rewrite Ha. apply in_or_app. left.
      apply in_map_iff. exists (x, r). split; [reflexivity|].
      apply IH; [exact Hall|]. discriminate.
Qed.

Lemma rep_complete (p : cclass) (lo : nat) (hi : option nat) (x r : text) :
  forallb p x = true -> lo <= List.length x ->
  (forall h, hi = Some h -> List.length x <= h) ->
  In (x, r) (match_item (Rep p lo hi) (x ++ r)).
Proof.
  intros Hall Hlo Hhi. simpl. apply filter_In. split.
  - now apply rep_splits_complete.
  - simpl. now apply Nat.leb_le.
Qed.

Lemma icase_weaken (p : cclass) (s : text) :
  forallb p s = true -> forallb (icase_class p) s = true.
Proof.
  rewrite !forallb_forall. intros H c Hc. unfold icase_class.
  now rewrite (H c Hc).
Qed.

Lemma lit_complete (a : ascii) (r : text) :
  In ([a], r) (match_item (icase_item (lit a)) (a :: r)).
Proof.
  apply (rep_complete (icase_class (chr a)) 1 (Some 1) [a] r).
  - simpl. unfold icase_class, chr. now rewrite Ascii.eqb_refl.
  - simpl. lia.
  - intros h [= <-]. simpl. lia.
Qed.

Lemma lits_complete (t r : text) :
  In (map (fun c => [c]) t, r) (match_items (icase (lits t)) (t ++ r)).
Proof.
  induction t as [|a t IH]; [now left|].
  change (In ([a] :: map (fun c => [c]) t, r)
             (match_items (icase_item (lit a) :: icase (lits t))
                          (a :: t ++ r))).
  apply (items_cons_intro _ _ _ [a] (t ++ r)); [apply lit_complete|exact IH].
Qed.

Lemma lits_one_way (t : text) (r : regex) :
  unambiguous r -> unambiguous (icase (lits t) ++ r).
Proof.
  intros U. induction t as [|a t IH]; [exact U|].
  change (unambiguous (icase_item (lit a) :: icase (lits t) ++ r)).
  split; [now left | exact IH].
Qed.

End ReMore.

Lemma icase_space (c : ascii) :
  Re.icase_class isspace c = true -> isspace c = true.
Proof. revert c. by_char. Qed.

Lemma icase_digit (c : ascii) :
  Re.icase_class isdigit c = true -> isdigit c = true.
Proof. revert c. by_char. Qed.

Lemma digit_not_space (c : ascii) : isdigit c = true -> isspace c = false.
Proof. revert c. by_char. Qed.

Lemma forallb_imp {A} (p q : A -> bool) (l : list A) :
  (forall a, p a = true -> q a = true) ->
  forallb p l = true -> forallb q l = true.
Proof. rewrite !forallb_forall. auto. Qed.

Lemma letters_solid (l : text) :
  forallb (Re.icase_class Re.upper_or_dot) l = true -> solid l.
Proof.
  apply forallb_imp. intros c H. now rewrite (letter_not_space c H).
Qed.

Lemma strip_fixed (c d : ascii) (mid : text) :
  isspace c = false -> isspace d = false ->
  strip (c :: mid ++ [d]) = c :: mid ++ [d].
Proof.
  intros Hc Hd. unfold strip. rewrite (lstrip_keeps _ _ Hc).
  exact (rstrip_keeps (c :: mid) d Hd).
Qed.

Lemma four_chars (y : text) (p : ascii -> bool) :
  List.length y = 4 -> forallb p y = true ->
  exists front d, y = front ++ [d] /\ p d = true.
Proof.
  destruct y as [|a [|b [|c [|d [|e y]]]]]; try discriminate. intros _ H.
  exists [a; b; c], d. split; [reflexivity|].
  simpl in H. repeat (apply andb_prop in H; destruct H as [? H]). assumption.
Qed.

(** * Records of the free-text scan *)

(** Take a match apart, item by item. *)
Ltac peel H :=
  repeat (let x := fresh "x" in
          let mid := fresh "mid" in
          let ps := fresh "ps" in
          let Hx := fresh "Hx" in
          apply ReMore.items_cons_inv in H;
          destruct H as (x & mid & ps & -> & Hx & H);
          apply ReFacts.rep_sound in Hx);
  apply ReMore.items_nil_inv in H; destruct H as [-> ->].

Lemma nonempty_length (s : text) : 1 <= List.length s -> s <> [].
Proof. destruct s; simpl; [lia|discriminate]. Qed.

Lemma scan_match_shape (pattern : Re.regex) (t : text) (m : list text * text) :
  In pattern case_patterns ->
  In m (Re.match_items (Re.icase pattern) t) ->
  exists l w, scanned (Re.group0 m) l w.
Proof.
  intros Hp H. destruct m as [ps rest]. unfold case_patterns in Hp.
  each_member; cbn [Re.icase map Re.icase_item Re.plus Re.lit Re.times Re.one]
    in H; peel H; unfold Re.group0; cbn [fst List.concat].
  - exists x, x0, (x1 ++ x2), x3. rewrite app_nil_r, <- !app_assoc.
    repeat match goal with
           | H : _ /\ _ |- _ => destruct H
           end.
    repeat split; auto using nonempty_length.
    + eapply forallb_imp; [exact icase_space|assumption].
    + match goal with
      | H : forall h, Some 4 = Some h -> _ |- _ => specialize (H 4 eq_refl)
      end. lia.
    + eapply forallb_imp; [exact icase_digit|assumption].
  - exists x, x0, (x1 ++ x2 ++ x3 ++ x4 ++ x5), x6.
    rewrite app_nil_r, <- !app_assoc.
    repeat match goal with
           | H : _ /\ _ |- _ => destruct H
           end.
    repeat split; auto using nonempty_length.
    + eapply forallb_imp; [exact icase_space|assumption].
    + match goal with
      | H : forall h, Some 4 = Some h -> _ |- _ => specialize (H 4 eq_refl)
      end. lia.
    + eapply forallb_imp; [exact icase_digit|assumption].
  - exists x, x0, (x1 ++ x2), x3. rewrite app_nil_r, <- !app_assoc.
    repeat match goal with
           | H : _ /\ _ |- _ => destruct H
           end.
    repeat split; auto using nonempty_length.
    + eapply forallb_imp; [exact icase_space|assumption].
    + match goal with
      | H : forall h, Some 4 = Some h -> _ |- _ => specialize (H 4 eq_refl)
      end. lia.
    + eapply forallb_imp; [exact icase_digit|assumption].
Qed.

Lemma scanned_strip (x l w : text) : scanned x l w -> strip x = x.
Proof.
  intros (rest & y & -> & Hl & Al & Hw & Aw & Ly & Ay).
  destruct l as [|c l]; [congruence|].
  destruct (four_chars y isdigit Ly Ay) as (front & d & -> & Hd).
  simpl in Al. apply andb_prop in Al. destruct Al as [Hc _].
  replace ((c :: l) ++ w ++ rest ++ front ++ [d])
    with (c :: (l ++ w ++ rest ++ front) ++ [d])
    by (simpl; now rewrite <- !app_assoc).
  apply strip_fixed; [now apply letter_not_space | now apply digit_not_space].
Qed.

Lemma scanned_case_type (x l w : text) :
  scanned x l w -> _extract_case_type x = l.
Proof.
  intros (rest & y & -> & Hl & Al & Hw & Aw & Ly & Ay).
  destruct w as [|c w]; [congruence|].
  simpl in Aw. apply andb_prop in Aw. destruct Aw as [Hc _].
  unfold _extract_case_type.
  destruct (l ++ (c :: w) ++ rest ++ y) eqn:E.
  - apply app_eq_nil in E. destruct E. congruence.
  - rewrite <- E. simpl app.
    now rewrite (split_first l c _ Hl (letters_solid l Al) Hc).
Qed.

(** X5 -- A record of the free-text scan has for case number the text
    matched, which is letters or dots, then whitespace, then more, ending
    in four digits; and its case type is that leading run of letters and
    dots. *)
Theorem text_record_shape (html_content : text) (r : CaseRecord) :
  In r (_extract_from_text html_content) ->
  exists l w, scanned (case_number r) l w /\ case_type r = l.
Proof.
  unfold _extract_from_text. intros H.
  apply in_flat_map in H. destruct H as (pattern & Hp & H).
  apply in_map_iff in H. destruct H as (x & <- & H).
  apply ReFacts.findall_sound in H. destruct H as (t & m & Hm & ->).
  apply ReFacts.hd_error_in in Hm.
  destruct (scan_match_shape pattern t m Hp Hm) as (l & w & S).
  exists l, w. simpl. rewrite (scanned_strip _ _ _ S).
  split; [exact S | exact (scanned_case_type _ _ _ S)].
Qed.

Lemma text_record_shape_witness :
  exists l w, scanned (case_number (text_case "LPA 163/2023")) l w
              /\ case_type (text_case "LPA 163/2023") = l.
Proof.
  apply (text_record_shape "<td>LPA 163/2023</td>").
  vm_compute. now left.
Defined.

(** * What the case-number parser returns *)

Lemma lower_lower (c : ascii) : lower_char (lower_char c) = lower_char c.
Proof. revert c. by_char. Qed.

Lemma lower_upper (c : ascii) : lower_char (upper_char c) = lower_char c.
Proof. revert c. by_char. Qed.

Lemma icase_chr_lower (a c : ascii) :
  Re.icase_class (Re.chr a) c = true -> lower_char c = lower_char a.
Proof.
  unfold Re.icase_class, Re.chr. intros H.
  apply orb_prop in H. destruct H as [H|H];
    [apply orb_prop in H; destruct H as [H|H]|];
    apply Ascii.eqb_eq in H; subst a;
    auto using lower_lower, lower_upper.
Qed.

Lemma lits_sound (t : text) :
  forall s ps rest,
    In (ps, rest) (Re.match_items (Re.icase (Re.lits t)) s) ->
    List.length ps = List.length t
    /\ exists t', s = t' ++ rest /\ lower t' = lower t.
Proof.
  induction t as [|a t IH]; intros s ps rest H.
  - apply ReMore.items_nil_inv in H. destruct H as [-> ->].
    split; [reflexivity|]. now exists [].
  - change (Re.icase (Re.lits (a :: t)))
      with (Re.icase_item (Re.lit a) :: Re.icase (Re.lits t)) in H.
    apply ReMore.items_cons_inv in H.
    destruct H as (x & mid & ps' & -> & Hx & H).
    apply ReFacts.rep_sound in Hx. destruct Hx as (-> & Hall & Hlo & Hhi).
    specialize (Hhi 1 eq_refl).
    destruct x as [|c [|d x]]; simpl in Hlo, Hhi; try lia.
    simpl in Hall. rewrite andb_true_r in Hall.
    destruct (IH _ _ _ H) as (L & t' & -> & Ht').
    split; [simpl; now rewrite L|].
    exists (c :: t'). split; [reflexivity|].
    simpl. now rewrite Ht', (icase_chr_lower _ _ Hall).
Qed.

Lemma match_known_sound (types : list text) (s : text) (info : ParsedCaseNumber) :
  match_known types s = Some info ->
  exists t m,
    In t types
    /\ Re.re_match (Re.icase (known_pattern t)) s = Some m
    /\ info = {| pc_case_type := t;
                 pc_number := piece (List.length t + 1) m;
                 pc_year := piece (List.length t + 3) m |}.
Proof.
  induction types as [|t types IH]; simpl; [discriminate|].
  destruct (Re.re_match _ s) as [m|] eqn:E.
  - intros [= <-]. exists t, m. tauto.
  - intros H. destruct (IH H) as (t' & m & Ht & Hm & Hi).
    exists t', m. tauto.
Qed.

Lemma match_generic_sound (pats : list (Re.regex * (nat * nat * nat)))
  (s : text) (info : ParsedCaseNumber) :
  match_generic pats s = Some info ->
  exists pattern g1 g2 g3 m,
    In (pattern, (g1, g2, g3)) pats
    /\ Re.re_match (Re.icase pattern) s = Some m
    /\ info = {| pc_case_type := strip (piece g1 m);
                 pc_number := piece g2 m;
                 pc_year := piece g3 m |}.
Proof.
  induction pats as [|[pattern [[g1 g2] g3]] pats IH]; simpl; [discriminate|].
  destruct (Re.re_match _ s) as [m|] eqn:E.
  - intros [= <-]. exists pattern, g1, g2, g3, m. tauto.
  - intros H. destruct (IH H) as (p' & a & b & c & m & Hin & Hm & Hi).
    exists p', a, b, c, m. tauto.
Qed.

Lemma strip_solid (x : text) : solid x -> strip x = x.
Proof.
  intros H. destruct x as [|c x]; [reflexivity|].
  apply solid_cons in H. destruct H as [Hc H].
  destruct (exists_last (l := c :: x)) as (front & d & E); [discriminate|].
  assert (Hd : isspace d = false).
  { assert (S : solid (front ++ [d])) by (rewrite <- E; apply solid_cons; tauto).
    unfold solid in S. rewrite forallb_app in S. simpl in S.
    apply andb_prop in S. destruct S as [_ S].
    rewrite andb_true_r in S. now apply negb_true_iff. }
  unfold strip. rewrite (lstrip_keeps _ _ Hc), E. now apply rstrip_keeps.
Qed.

Ltac peel_all H :=
  repeat (let x := fresh "x" in
          let mid := fresh "mid" in
          let ps := fresh "ps" in
          let Hx := fresh "Hx" in
          apply ReMore.items_cons_inv in H;
          destruct H as (x & mid & ps & -> & Hx & H);
          first [apply ReFacts.rep_sound in Hx | apply ReFacts.eol_sound in Hx]);
  apply ReMore.items_nil_inv in H; destruct H as [-> ->].

Ltac digits_done :=
  repeat match goal with
         | H : _ /\ _ |- _ => destruct H
         end;
  repeat split;
  try (apply nonempty_length; assumption);
  try (eapply forallb_imp; [exact icase_digit|assumption]);
  try match goal with
      | H : forall h, Some 4 = Some h -> _ |- _ =>
          specialize (H 4 eq_refl); lia
      end.

(** X6 -- Whatever the parser returns has a number that is a
    non-empty run of digits, a year of exactly four digits, and a case
    type that is not empty, has no whitespace and begins the input,
    letter case aside. *)
Theorem parsed_case_number_shape (case_number : text) (info : ParsedCaseNumber) :
  _parse_case_number case_number = Some info ->
  pc_number info <> [] /\ forallb isdigit (pc_number info) = true
  /\ List.length (pc_year info) = 4 /\ forallb isdigit (pc_year info) = true
  /\ pc_case_type info <> [] /\ solid (pc_case_type info)
  /\ startswith (lower (pc_case_type info)) (lower case_number) = true.
Proof.
  unfold _parse_case_number.
  destruct (match_known case_types case_number) as [i|] eqn:K.
  - intros [= <-]. apply match_known_sound in K.
    destruct K as (t & m & Ht & Hm & ->). cbn [pc_case_type pc_number pc_year].
    apply ReFacts.hd_error_in in Hm. destruct m as [ps rest].
    unfold known_pattern, Re.icase in Hm. rewrite map_app in Hm.
    apply ReFacts.items_app in Hm.
    destruct Hm as (ps1 & mid & ps2 & E & H1 & H2). cbn [snd] in E, H2.
    injection E as ->.
    destruct (lits_sound _ _ _ _ H1) as (L & t' & -> & Ht').
    cbn [map Re.icase_item Re.star Re.plus Re.lit Re.times Re.one] in H2.
    peel_all H2. unfold piece. cbn [fst]. rewrite <- L, !app_nth2_plus.
    cbn [nth].
    assert (T : t <> [] /\ solid t)
      by (unfold case_types in Ht; each_member;
          (split; [discriminate | reflexivity])).
    destruct T as [T1 T2].
    rewrite lower_app, Ht', startswith_app.
    digits_done; assumption.
  - intros G. apply match_generic_sound in G.
    destruct G as (pattern & g1 & g2 & g3 & m & Hin & Hm & ->).
    cbn [pc_case_type pc_number pc_year].
    apply ReFacts.hd_error_in in Hm. destruct m as [ps rest].
    unfold patterns in Hin.
    destruct Hin as [Hin|[Hin|[Hin|[]]]]; injection Hin as <- <- <- <-;
      cbn [Re.icase map Re.icase_item Re.star Re.plus Re.lit Re.times Re.one]
        in Hm;
      peel_all Hm; unfold piece; cbn [fst nth];
      repeat match goal with
             | H : _ /\ _ |- _ => destruct H
             end;
      subst;
      match goal with
      | H : forallb (Re.icase_class Re.upper_or_dot) ?l = true |- _ =>
          pose proof (letters_solid l H) as Sl;
          rewrite (strip_solid l Sl)
      end;
      rewrite lower_app, startswith_app;
      digits_done; assumption.
Qed.

Lemma parsed_case_number_shape_witness :
  let info := {| pc_case_type := "crl.a."; pc_number := "789";
                 pc_year := "2021" |} in
  pc_number info <> [] /\ forallb isdigit (pc_number info) = true
  /\ List.length (pc_year info) = 4 /\ forallb isdigit (pc_year info) = true
  /\ pc_case_type info <> [] /\ solid (pc_case_type info)
  /\ startswith (lower (pc_case_type info)) (lower "crl.a. 789-2021") = true.
Proof.
  intros info.
  apply (parsed_case_number_shape "crl.a. 789-2021" info).
  vm_compute. reflexivity.
Defined.

(** * Case numbers of a known type *)

Lemma known_tail_one_way :
  Re.unambiguous
    (Re.icase [Re.star isspace; Re.plus isdigit; Re.lit "/";
               Re.times 4 isdigit; Re.Eol]).
Proof. one_way. Qed.

(** A known type, whitespace, digits, a slash and four digits match the
    pattern of the type, in one way. *)
Lemma known_pattern_matches (t ws n y : text) :
  forallb isspace ws = true ->
  n <> [] -> forallb isdigit n = true ->
  List.length y = 4 -> forallb isdigit y = true ->
  Re.re_match (Re.icase (known_pattern t)) (t ++ ws ++ n ++ ("/" : text) ++ y)
  = Some (map (fun c => [c]) t ++ [ws; n; ("/" : text); y; []], []).
Proof.
  intros Hws Hn Dn Ly Dy.
  unfold known_pattern, Re.icase. rewrite map_app.
  apply ReFacts.unambiguous_first.
  - apply ReMore.lits_one_way. exact known_tail_one_way.
  - apply (ReMore.items_app_intro _ _ _ (ws ++ n ++ ("/" : text) ++ y));
      [apply ReMore.lits_complete|].
    cbn [map Re.icase_item Re.star Re.plus Re.lit Re.times Re.one].
    apply (ReMore.items_cons_intro _ _ _ ws (n ++ ("/" : text) ++ y)).
    { apply ReMore.rep_complete;
        [now apply ReMore.icase_weaken | lia | discriminate]. }
    apply (ReMore.items_cons_intro _ _ _ n (("/" : text) ++ y)).
    { apply ReMore.rep_complete;
        [now apply ReMore.icase_weaken | | discriminate].
      destruct n; [congruence | simpl; lia]. }
    apply (ReMore.items_cons_intro _ _ _ ("/" : text) y).
    { apply (ReMore.lit_complete "/" y). }
    rewrite <- (app_nil_r y) at 2.
    apply (ReMore.items_cons_intro _ _ _ y []).
    { apply ReMore.rep_complete;
        [now apply ReMore.icase_weaken | lia | intros h [= <-]; lia]. }
    apply (ReMore.items_cons_intro _ _ _ [] []); now left.
Qed.

Lemma match_known_skip (t : text) (types : list text) (s : text) :
  Re.re_match (Re.icase (known_pattern t)) s = None ->
  match_known (t :: types) s = match_known types s.
Proof. intros H. simpl. now rewrite H. Qed.

Lemma match_known_hit (t : text) (types : list text) (s : text)
  (m : list text * text) :
  Re.re_match (Re.icase (known_pattern t)) s = Some m ->
  match_known (t :: types) s
  = Some {| pc_case_type := t;
            pc_number := piece (List.length t + 1) m;
            pc_year := piece (List.length t + 3) m |}.
Proof. intros H. simpl. now rewrite H. Qed.

Lemma space_chars (c : ascii) :
  isspace c = true ->
  In c [ascii_of_nat 9; ascii_of_nat 10; ascii_of_nat 11; ascii_of_nat 12;
        ascii_of_nat 13; ascii_of_nat 28; ascii_of_nat 29; ascii_of_nat 30;
        ascii_of_nat 31; ascii_of_nat 32].
Proof.
  revert c. intros c. destruct c as [[] [] [] [] [] [] [] []]; vm_compute;
    intros H; try discriminate H; tauto.
Qed.

Lemma digit_chars (c : ascii) :
  isdigit c = true ->
  In c ["0"; "1"; "2"; "3"; "4"; "5"; "6"; "7"; "8"; "9"]%char.
Proof.
  revert c. intros c. destruct c as [[] [] [] [] [] [] [] []]; vm_compute;
    intros H; try discriminate H; tauto.
Qed.

(** The loop over the known types, up to the type of the input *)
Ltac known_scan M :=
  unfold case_types;
  repeat lazymatch goal with
         | |- match_known (?t1 :: _) _
              = Some {| pc_case_type := ?t; pc_number := _; pc_year := _ |} =>
             tryif constr_eq t1 t
             then rewrite (match_known_hit _ _ _ _ M)
             else rewrite match_known_skip by (vm_compute; reflexivity)
         end.

(** X7 -- A known case type as listed, followed by any whitespace or
    none, a number, a slash and a year of four digits, is parsed into
    that case type, that number and that year. *)
Theorem known_type_parses (t ws n y : text) :
  In t case_types ->
  forallb isspace ws = true ->
  n <> [] -> forallb isdigit n = true ->
  List.length y = 4 -> forallb isdigit y = true ->
  _parse_case_number (t ++ ws ++ n ++ ("/" : text) ++ y)
  = Some {| pc_case_type := t; pc_number := n; pc_year := y |}.
Proof.
  intros Ht Hws Hn Dn Ly Dy.
  pose proof (known_pattern_matches t ws n y Hws Hn Dn Ly Dy) as M.
  assert (K : match_known case_types (t ++ ws ++ n ++ ("/" : text) ++ y)
              = Some {| pc_case_type := t; pc_number := n; pc_year := y |}).
  { destruct ws as [|c ws].
    - destruct n as [|d n]; [congruence|].
      simpl in Dn. apply andb_prop in Dn. destruct Dn as [Dd _].
      apply digit_chars in Dd.
      unfold case_types in Ht.
      each_member; known_scan M; reflexivity.
    - simpl in Hws. apply andb_prop in Hws. destruct Hws as [Hc _].
      apply space_chars in Hc.
      unfold case_types in Ht.
      each_member; known_scan M; reflexivity. }
  unfold _parse_case_number. now rewrite K.
Qed.

Lemma known_type_parses_witness :
  _parse_case_number (("LPA" : text) ++ (" " : text) ++ ("163" : text)
                      ++ ("/" : text) ++ ("2023" : text))
  = Some {| pc_case_type := "LPA"; pc_number := "163"; pc_year := "2023" |}.
Proof.
  apply (known_type_parses "LPA" " " "163" "2023");
    try reflexivity; try discriminate.
  vm_compute. tauto.
Defined.

(** * The form data of a search *)

Lemma text_eqb_eq (a b : text) : text_eqb a b = true <-> a = b.
Proof.
  unfold text_eqb. destruct (list_eq_dec ascii_dec a b); split;
    congruence.
Qed.

Lemma text_eqb_refl (a : text) : text_eqb a a = true.
Proof. now apply text_eqb_eq. Qed.

Lemma text_eqb_neq (a b : text) : a <> b -> text_eqb a b = false.
Proof.
  intros H. destruct (text_eqb a b) eqn:E; [|reflexivity].
  apply text_eqb_eq in E. congruence.
Qed.

Lemma lookup_dict_set (key value : text) (d : list (text * text)) :
  lookup key (dict_set key value d) = Some value.
Proof.
  induction d as [|[k v] d IH]; simpl.
  - now rewrite text_eqb_refl.
  - destruct (text_eqb k key) eqn:E; simpl; rewrite E; [reflexivity|exact IH].
Qed.

Lemma lookup_dict_set_other (key key' value : text) (d : list (text * text)) :
  key' <> key -> lookup key' (dict_set key value d) = lookup key' d.
Proof.
  intros H. induction d as [|[k v] d IH]; simpl.
  - now rewrite (text_eqb_neq key key') by congruence.
  - destruct (text_eqb k key) eqn:E; simpl.
    + apply text_eqb_eq in E. subst k.
      now rewrite (text_eqb_neq key key') by congruence.
    + now rewrite IH.
Qed.

Lemma echo_step_other (data : list (text * text)) (hidden : node) (key : text) :
  get "name" hidden <> Some key ->
  lookup key (echo_step data hidden) = lookup key data.
Proof.
  intros H. unfold echo_step.
  destruct (get "name" hidden) as [[|c name]|]; try reflexivity.
  apply lookup_dict_set_other. congruence.
Qed.

Lemma echo_step_same (data : list (text * text)) (hidden : node) (key : text) :
  get "name" hidden = Some key -> key <> [] ->
  lookup key (echo_step data hidden) = Some (value_of hidden).
Proof.
  intros H Hk. unfold echo_step. rewrite H.
  destruct key as [|c name]; [congruence|]. apply lookup_dict_set.
Qed.

Lemma echo_others (hiddens : list node) (key : text) :
  forall data,
    (forall h, In h hiddens -> get "name" h <> Some key) ->
    lookup key (fold_left echo_step hiddens data) = lookup key data.
Proof.
  induction hiddens as [|h hiddens IH]; intros data H; simpl; [reflexivity|].
  rewrite IH by (intros h' Hh'; apply H; now right).
  apply echo_step_other. apply H. now left.
Qed.

Lemma echo_last (pre : list node) (h : node) (post : list node) (key : text)
  (data : list (text * text)) :
  get "name" h = Some key -> key <> [] ->
  (forall h', In h' post -> get "name" h' <> Some key) ->
  lookup key (fold_left echo_step (pre ++ h :: post) data)
  = Some (value_of h).
Proof.
  intros Hn Hk Hpost. rewrite fold_left_app. simpl.
  rewrite (echo_others post key _ Hpost). now apply echo_step_same.
Qed.

Lemma echo_hidden_loop (soup : list node) (data : list (text * text)) :
  echo_hidden soup data = fold_left echo_step (hidden_inputs soup) data.
Proof. reflexivity. Qed.

Section Requests.

Variable session_get : text -> option text.
Variable session_post : text -> list (text * text) -> option text.
Variable BeautifulSoup : text -> list node.

(** X8 -- The form posted by a party-name search carries, for every
    name of a hidden input of the search page, the value of the last
    hidden input of that name (also when the name is that of a query
    field, which it then replaces); and the party name sent is the one
    asked for when no hidden input is named "party_name". *)
Theorem party_form_data (party_name page : text) :
  session_get search_url = Some page ->
  exists data,
    fst (_search_by_party_name session_get session_post BeautifulSoup party_name)
    = [Get search_url; Post search_url data]
    /\ (forall pre h post key,
           hidden_inputs (BeautifulSoup page) = pre ++ h :: post ->
           get "name" h = Some key -> key <> [] ->
           (forall h', In h' post -> get "name" h' <> Some key) ->
           lookup key data = Some (value_of h))
    /\ ((forall h, In h (hidden_inputs (BeautifulSoup page)) ->
                   get "name" h <> Some ("party_name" : text)) ->
        lookup "party_name" data = Some party_name).
Proof.
  intros Hg. unfold _search_by_party_name. rewrite Hg.
  eexists. split; [destruct (session_post _ _); reflexivity|]. split.
  - intros pre h post key E Hn Hk Hpost. rewrite E. now apply echo_last.
  - intros H. now rewrite echo_others.
Qed.

(** X9 -- A search sends at most two requests, the GET of the search
    page first and then one POST; when the GET fails nothing is posted
    and the result is empty; a party-name search always sends the GET;
    and a response with a CAPTCHA marker gives the empty list. *)
Theorem search_requests (query : text) :
  let by_party :=
    _search_by_party_name session_get session_post BeautifulSoup query in
  let by_number :=
    _search_by_case_number session_get session_post BeautifulSoup query in
  (fst by_party = [Get search_url]
   \/ exists data, fst by_party = [Get search_url; Post search_url data])
  /\ (fst by_number = [] \/ fst by_number = [Get search_url]
      \/ exists data, fst by_number = [Get search_url; Post search_url data])
  /\ (session_get search_url = None ->
      by_party = ([Get search_url], [])
      /\ (by_number = ([], []) \/ by_number = ([Get search_url], [])))
  /\ (forall data response_text,
         session_post search_url data = Some response_text ->
         has_captcha response_text = true ->
         (fst by_party = [Get search_url; Post search_url data] ->
          snd by_party = [])
         /\ (fst by_number = [Get search_url; Post search_url data] ->
             snd by_number = [])).
Proof.
  intros by_party by_number. subst by_party by_number.
  unfold _search_by_party_name, _search_by_case_number.
  destruct (session_get search_url) as [page|] eqn:Eg.
  - destruct (_parse_case_number query) as [info|] eqn:Ep.
    + split; [|split; [|split]].
      * right. eexists. destruct (session_post _ _); reflexivity.
      * right. right. eexists. destruct (session_post _ _); reflexivity.
      * discriminate.
      * intros data response_text Hpost Hc. split.
        -- destruct (session_post search_url (fold_left _ _ _)) eqn:E;
             [|reflexivity].
           cbn [fst snd]. intros Hd. injection Hd as Hd.
           rewrite <- Hd in Hpost.
           pose proof (eq_trans (eq_sym E) Hpost) as T. injection T as ->.
           unfold _parse_search_results, parse_run. now rewrite Hc.
        -- destruct (session_post search_url (echo_hidden _ _)) eqn:E;
             [|reflexivity].
           cbn [fst snd]. intros Hd. injection Hd as Hd.
           rewrite <- Hd in Hpost.
           pose proof (eq_trans (eq_sym E) Hpost) as T. injection T as ->.
           unfold _parse_search_results, parse_run. now rewrite Hc.
    + split; [|split; [|split]].
      * right. eexists. destruct (session_post _ _); reflexivity.
      * now left.
      * discriminate.
      * intros data response_text Hpost Hc. split; [|discriminate].
        destruct (session_post search_url (fold_left _ _ _)) eqn:E;
          [|reflexivity].
        cbn [fst snd]. intros Hd. injection Hd as Hd.
        rewrite <- Hd in Hpost.
        pose proof (eq_trans (eq_sym E) Hpost) as T. injection T as ->.
        unfold _parse_search_results, parse_run. now rewrite Hc.
  - destruct (_parse_case_number query); simpl;
      (split; [now left|]); (split; [tauto|]);
      (split; [tauto|]); intros; split; discriminate.
Qed.

End Requests.

Lemma party_form_data_witness :
  exists data,
    fst (_search_by_party_name (fun _ => Some ("page" : text))
           (fun _ _ => None) (fun _ => token_page) "Doe")
    = [Get search_url; Post search_url data]
    /\ lookup "token" data = Some ("xyz" : text)
    /\ lookup "party_name" data = Some ("Doe" : text).
Proof.
  destruct (party_form_data (fun _ => Some ("page" : text))
              (fun _ _ => None) (fun _ => token_page) "Doe" "page" eq_refl)
    as (data & Hreq & Hlast & Hquery).
  exists data. split; [exact Hreq|]. split.
  - apply (Hlast
             [Tag "input" [("type" : text, "hidden" : text);
                           ("name" : text, "token" : text);
                           ("value" : text, "abc" : text)] []]
             (Tag "input" [("type" : text, "hidden" : text);
                           ("name" : text, "token" : text);
                           ("value" : text, "xyz" : text)] [])
             [] "token").
    + vm_compute. reflexivity.
    + vm_compute. reflexivity.
    + discriminate.
    + intros h' [].
  - apply Hquery. intros h Hh. vm_compute in Hh.
    destruct Hh as [<-|[<-|[]]]; vm_compute; discriminate.
Defined.

Lemma search_requests_witness :
  _search_by_party_name (fun _ => None) (fun _ _ => None) (fun _ => []) "Doe"
  = ([Get search_url], [])
  /\ (_search_by_case_number (fun _ => None) (fun _ _ => None) (fun _ => [])
        "Doe" = ([], [])
      \/ _search_by_case_number (fun _ => None) (fun _ _ => None) (fun _ => [])
           "Doe" = ([Get search_url], [])).
Proof.
  destruct (search_requests (fun _ => None) (fun _ _ => None) (fun _ => [])
              "Doe") as (_ & _ & H & _).
  apply H. reflexivity.
Defined.

(** * More on the date normalizer *)

(** X10 -- Whitespace around a date does not change what it
    normalizes to. *)
Theorem parse_date_strips (date_string : text) :
  _parse_date (Some date_string) = _parse_date (Some (strip date_string)).
Proof.
  destruct date_string as [|c s]; [reflexivity|].
  unfold _parse_date.
  destruct (strip (c :: s)) as [|a l] eqn:E; [reflexivity|].
  now rewrite <- E, strip_idempotent.
Qed.

Section Century.

Local Open Scope N_scope.

Lemma digit_value_le (c : ascii) :
  isdigit c = true -> (digit_value c <=? 9) = true.
Proof. revert c. by_char. Qed.

Lemma int_two_digits (s : text) :
  List.length s = 2%nat -> forallb isdigit s = true -> int s <= 99.
Proof.
  destruct s as [|a [|b [|c s]]]; try discriminate. intros _ H.
  simpl in H. rewrite andb_true_r in H. apply andb_prop in H.
  destruct H as [Ha Hb].
  unfold int. rewrite strip_two by now apply digit_not_space.
  cbn [fold_left].
  pose proof (digit_value_le a Ha) as La. pose proof (digit_value_le b Hb) as Lb.
  apply N.leb_le in La, Lb. lia.
Qed.

(** Take a match apart; the parts of quantified classes with their facts *)
Ltac peel_any H :=
  repeat (let x := fresh "x" in
          let mid := fresh "mid" in
          let ps := fresh "ps" in
          let Hx := fresh "Hx" in
          apply ReMore.items_cons_inv in H;
          destruct H as (x & mid & ps & -> & Hx & H);
          try apply ReFacts.rep_sound in Hx);
  apply ReMore.items_nil_inv in H; destruct H as [-> ->].

Lemma two_digit_year (s : text) (sep : ascii) (d : date) :
  strptime s [Dd; Sep sep; Dm; Sep sep; Dy] = Some d ->
  1969 <= year d <= 2068.
Proof.
  unfold strptime.
  destruct (Re.re_match _ s) as [m|] eqn:E; [|discriminate].
  destruct (snd m); [|discriminate].
  destruct (valid _); [|discriminate]. intros [= <-].
  apply ReFacts.hd_error_in in E. destruct m as [ps rest].
  cbn [map item_of Re.icase Re.icase_item Re.lit Re.one Re.times] in E.
  peel_any E. cbn [fst set_fields set_field year].
  destruct Hx3 as (_ & Hall & Hlo & Hhi). specialize (Hhi 2%nat eq_refl).
  assert (L : int x3 <= 99).
  { apply int_two_digits; [lia|].
    eapply forallb_imp; [exact icase_digit|exact Hall]. }
  destruct (int x3 <=? 68) eqn:C.
  - apply N.leb_le in C. lia.
  - apply N.leb_gt in C. lia.
Qed.

End Century.

(** X11 -- When no format with a four-digit year parses the input
    and one with a two-digit year does, the year of the result lies
    between 1969 and 2068. *)
Theorem two_digit_year_window (date_string : text) (fmt : list directive)
  (d : date) :
  date_string <> [] ->
  (forall f, In f [ [Dd; Sep "/"; Dm; Sep "/"; DY];
                    [Dd; Sep "-"; Dm; Sep "-"; DY];
                    [DY; Sep "-"; Dm; Sep "-"; Dd] ] ->
             strptime (strip date_string) f = None) ->
  (fmt = [Dd; Sep "/"; Dm; Sep "/"; Dy]
   \/ fmt = [Dd; Sep "-"; Dm; Sep "-"; Dy]
      /\ strptime (strip date_string) [Dd; Sep "/"; Dm; Sep "/"; Dy] = None) ->
  strptime (strip date_string) fmt = Some d ->
  _parse_date (Some date_string) = Some (strftime d)
  /\ (1969 <= year d <= 2068)%N.
Proof.
  intros Hs H4 Hfmt Hd. destruct date_string as [|c s]; [congruence|].
  unfold _parse_date, date_formats. simpl try_formats.
  rewrite !H4 by (simpl; tauto).
  destruct Hfmt as [->|[-> H5]].
  - rewrite Hd. split; [reflexivity|]. exact (two_digit_year _ _ _ Hd).
  - rewrite H5, Hd. split; [reflexivity|]. exact (two_digit_year _ _ _ Hd).
Qed.

Lemma two_digit_year_window_witness :
  _parse_date (Some ("01/01/69" : text))
  = Some (strftime {| year := 1969; month := 1; day := 1 |})
  /\ (1969 <= year {| year := 1969; month := 1; day := 1 |} <= 2068)%N.
Proof.
  apply (two_digit_year_window "01/01/69" [Dd; Sep "/"; Dm; Sep "/"; Dy]).
  - discriminate.
  - intros f Hf. each_member; vm_compute; reflexivity.
  - left. reflexivity.
  - vm_compute. reflexivity.
Defined.

(** * The petitioner of a row *)

Section Petitioner.

Variable cells : list node.

(** The petitioner stays when every cell on the party arm is the last of
    the row. *)
Lemma petitioner_kept (rest : list node) :
  forall vars i,
    (forall j, nth_error (row_branches cells vars i rest) j = Some Party ->
               nth_error cells (i + j + 1) = None) ->
    v_petitioner (row_loop cells vars i rest) = v_petitioner vars.
Proof.
  induction rest as [|cell rest IH]; intros vars i H; simpl; [reflexivity|].
  rewrite IH.
  - unfold row_step.
    destruct (branch_of vars (get_text cell)) eqn:B; try reflexivity.
    + specialize (H 0). simpl in H. rewrite B in H.
      rewrite Nat.add_0_r in H. now rewrite (H eq_refl).
    + destruct (negb (truthy (v_filing_date vars))); reflexivity.
  - intros j Hj. specialize (H (S j) Hj).
    now replace (S i + j + 1) with (i + S j + 1) by lia.
Qed.

Lemma petitioner_of_last (pre : list node) (c nxt : node) (post : list node) :
  forall front vars,
    cells = front ++ pre ++ c :: nxt :: post ->
    nth_error (row_branches cells vars (List.length front)
                 (pre ++ c :: nxt :: post)) (List.length pre) = Some Party ->
    (forall j, List.length pre < j ->
               nth_error (row_branches cells vars (List.length front)
                            (pre ++ c :: nxt :: post)) j <> Some Party) ->
    v_petitioner (row_loop cells vars (List.length front)
                    (pre ++ c :: nxt :: post))
    = Some (get_text nxt).
Proof.
  induction pre as [|a pre IH]; intros front vars E Hc Hlater.
  - cbn [app List.length] in *.
    change (row_branches cells vars (List.length front) (c :: nxt :: post))
      with (branch_of vars (get_text c)
            :: row_branches cells (row_step cells vars (List.length front) c)
                 (S (List.length front)) (nxt :: post)) in Hc, Hlater.
    cbn [nth_error] in Hc. injection Hc as Hc.
    assert (N : nth_error cells (List.length front + 1) = Some nxt).
    { rewrite E. rewrite nth_error_app2 by lia.
      rewrite Nat.add_comm, Nat.add_sub. reflexivity. }
    change (row_loop cells vars (List.length front) (c :: nxt :: post))
      with (row_loop cells (row_step cells vars (List.length front) c)
              (S (List.length front)) (nxt :: post)).
    rewrite (petitioner_kept (nxt :: post)).
    + unfold row_step. now rewrite Hc, N.
    + intros j Hj. exfalso. exact (Hlater (S j) (Nat.lt_0_succ j) Hj).
  - simpl in *.
    specialize (IH (front ++ [a]) (row_step cells vars (List.length front) a)).
    rewrite length_app, Nat.add_1_r in IH. apply IH.
    + now rewrite <- app_assoc.
    + exact Hc.
    + intros j Hj. apply (Hlater (S j)). lia.
Qed.

End Petitioner.

(** X12 -- In the record of a row the petitioner is the text of the
    cell that follows the last cell on the party arm ("petitioner" or
    "vs"), or "N/A" when that text is empty; when the only cells on the
    party arm are last in the row, the petitioner is "N/A". *)
Theorem petitioner_follows_party (cells : list node) (r : CaseRecord) :
  _extract_case_from_row cells = Some r ->
  let arms := row_branches cells row_init 0 cells in
  (forall pre c nxt post,
      cells = pre ++ c :: nxt :: post ->
      nth_error arms (List.length pre) = Some Party ->
      (forall j, List.length pre < j -> nth_error arms j <> Some Party) ->
      petitioner r = or_default (Some (get_text nxt)) "N/A")
  /\ ((forall j, nth_error arms j = Some Party -> S j = List.length cells) ->
      petitioner r = ("N/A" : text)).
Proof.
  intros H arms. subst arms. unfold _extract_case_from_row in H.
  destruct (truthy (v_case_number _)); [|discriminate].
  injection H as <-. cbn [petitioner]. split.
  - intros pre c nxt post E Hc Hlater.
    pose proof (petitioner_of_last cells pre c nxt post [] row_init) as P.
    cbn [List.length app] in P. rewrite <- E in P.
    now rewrite (P eq_refl Hc Hlater).
  - intros Hlast. rewrite petitioner_kept; [reflexivity|].
    intros j Hj. apply nth_error_None. specialize (Hlast j Hj). lia.
Qed.

Lemma petitioner_follows_party_witness :
  exists r, _extract_case_from_row party_row = Some r
            /\ petitioner r = or_default (Some (get_text (td "Union of India"))) "N/A".
Proof.
  destruct (_extract_case_from_row party_row) as [r|] eqn:E;
    [|vm_compute in E; discriminate E].
  exists r. split; [reflexivity|].
  destruct (petitioner_follows_party party_row r E) as [H _].
  apply (H [td "W.P.(C) 1040/2023"; td "Petitioner"; td "State of Delhi"]
           (td "vs") (td "Union of India") [td "Pending"] eq_refl).
  - vm_compute. reflexivity.
  - intros j Hj. simpl in Hj.
    do 4 (destruct j as [|j]; [lia|]).
    destruct j as [|[|j]]; [vm_compute; discriminate ..|].
    destruct j; vm_compute; discriminate.
Defined.

(** * The text the scan runs on *)

Section Collapse.

Import Re ReFacts.

Lemma rep_splits_head (p : cclass) (x rest : text) :
  forallb p x = true ->
  match rest with c :: _ => p c = false | [] => True end ->
  exists tl, rep_splits p None (x ++ rest) = (x, rest) :: tl.
Proof.
  intros Hall Hrest. induction x as [|a x IH]; simpl.
  - destruct rest as [|c rest]; [now exists []|]. simpl. rewrite Hrest.
    now exists [].
  - simpl in Hall. apply andb_prop in Hall. destruct Hall as [Ha Hall].
    rewrite Ha. destruct (IH Hall) as [tl ->]. simpl. now eexists.
Qed.

Lemma spaces_match (x rest : text) :
  x <> [] -> forallb isspace x = true -> starts_solid rest ->
  re_match spaces_re (x ++ rest) = Some ([x], rest).
Proof.
  intros Hx Hall Hrest. unfold re_match, spaces_re, plus.
  cbn [match_items match_item].
  destruct (rep_splits_head isspace x rest Hall) as [tl ->].
  { destruct rest; [exact I | exact Hrest]. }
  destruct x as [|c x]; [congruence|]. reflexivity.
Qed.

Lemma spaces_no_match (c : ascii) (s : text) :
  isspace c = false -> re_match spaces_re (c :: s) = None.
Proof. intros H. unfold re_match. simpl. now rewrite H. Qed.

Lemma sub_from_skip (r : regex) (repl : text) (x : text) :
  forall rest,
    sub_from r repl (List.length x) (x ++ rest) = sub_from r repl 0 rest.
Proof. induction x as [|a x IH]; intros rest; simpl; [reflexivity|apply IH]. Qed.

(** The longest run of whitespace at the front *)
Lemma leading_spaces (s : text) :
  exists x rest,
    s = x ++ rest /\ forallb isspace x = true /\ starts_solid rest.
Proof.
  induction s as [|c s IH].
  - now exists [], [].
  - destruct (isspace c) eqn:E.
    + destruct IH as (x & rest & -> & Hall & Hrest).
      exists (c :: x), rest. simpl. now rewrite E.
    + exists [], (c :: s). simpl. tauto.
Qed.

Lemma collapse_spaces (x rest : text) (c : ascii) :
  forallb isspace (c :: x) = true -> starts_solid rest ->
  sub spaces_re " " ((c :: x) ++ rest) = " "%char :: sub spaces_re " " rest.
Proof.
  intros Hall Hrest. unfold sub. cbn [app sub_from].
  change (c :: x ++ rest) with ((c :: x) ++ rest).
  rewrite (spaces_match (c :: x) rest) by (assumption || discriminate).
  unfold group0. cbn [fst List.concat]. rewrite app_nil_r.
  cbn [List.length Nat.sub]. rewrite Nat.sub_0_r.
  now rewrite sub_from_skip.
Qed.

Lemma collapse_char (c : ascii) (s : text) :
  isspace c = false ->
  sub spaces_re " " (c :: s) = c :: sub spaces_re " " s.
Proof.
  intros H. unfold sub. cbn [sub_from]. now rewrite (spaces_no_match c s H).
Qed.

Lemma collapsed (n : nat) :
  forall s,
    List.length s <= n ->
    let t := sub spaces_re " " s in
    (forall c, In c t -> isspace c = true -> c = " "%char)
    /\ no_double t
    /\ (starts_solid s -> starts_solid t).
Proof.
  induction n as [|n IH]; intros s L t; subst t.
  - destruct s; [|simpl in L; lia]. simpl. tauto.
  - destruct s as [|c s]; [simpl; tauto|].
    destruct (isspace c) eqn:E.
    + destruct (leading_spaces s) as (x & rest & -> & Hall & Hrest).
      assert (Lr : List.length rest <= n)
        by (simpl in L; rewrite length_app in L; lia).
      destruct (IH rest Lr) as (I1 & I2 & I3).
      change (c :: x ++ rest) with ((c :: x) ++ rest).
      rewrite (collapse_spaces x rest c)
        by (assumption || (simpl; now rewrite E)).
      repeat split.
      * intros d [<-|Hd]; [reflexivity|]. now apply I1.
      * specialize (I3 Hrest).
        destruct (sub spaces_re " " rest) as [|b t'] eqn:Et; [exact I|].
        split; [intros _; exact I3 | exact I2].
      * simpl. congruence.
    + assert (Ls : List.length s <= n) by (simpl in L; lia).
      destruct (IH s Ls) as (I1 & I2 & I3).
      rewrite (collapse_char c s E). repeat split.
      * intros d [<-|Hd]; [congruence|]. now apply I1.
      * destruct (sub spaces_re " " s) as [|b t'] eqn:Et; [exact I|].
        split; [congruence | exact I2].
      * intros _. exact E.
Qed.

End Collapse.

Lemma lstrip_suffix (s : text) : exists l, s = l ++ lstrip s.
Proof.
  induction s as [|c s IH]; [now exists []|]. simpl.
  destruct (isspace c); [|now exists []].
  destruct IH as [l E]. exists (c :: l). simpl. now rewrite <- E.
Qed.

Lemma strip_infix (s : text) : exists l r, s = l ++ strip s ++ r.
Proof.
  unfold strip, rstrip.
  destruct (lstrip_suffix s) as [l El].
  destruct (lstrip_suffix (rev (lstrip s))) as [r Er].
  exists l, (rev r).
  apply (f_equal (@rev ascii)) in Er.
  rewrite rev_involutive, rev_app_distr in Er. now rewrite <- Er.
Qed.

Lemma no_double_app (a b : text) : no_double (a ++ b) -> no_double a /\ no_double b.
Proof.
  induction a as [|c a IH]; simpl; [tauto|].
  destruct a as [|d a]; simpl in *.
  - destruct b; tauto.
  - intros [H1 H2]. destruct (IH H2). tauto.
Qed.

(** X13 -- The text the free-text scan runs on has no whitespace at
    its ends, no whitespace character other than the blank, and no two
    blanks in a row. *)
Theorem plain_text_spaced (html_content : text) :
  let t := plain_text html_content in
  strip t = t
  /\ (forall c, In c t -> isspace c = true -> c = " "%char)
  /\ no_double t.
Proof.
  intros t. subst t. unfold plain_text.
  set (u := Re.sub tag_re " " html_content).
  destruct (collapsed (List.length u) u (le_n _)) as (I1 & I2 & _).
  destruct (strip_infix (Re.sub spaces_re " " u)) as (l & r & E).
  split; [apply strip_idempotent|]. split.
  - intros c Hc. apply I1. rewrite E. apply in_or_app. right.
    apply in_or_app. now left.
  - rewrite E in I2. apply no_double_app in I2. destruct I2 as [_ I2].
    apply no_double_app in I2. tauto.
Qed.

Lemma plain_text_spaced_witness :
  let t := plain_text "<p> LPA   163/2023 <br> Pending </p>" in
  strip t = t /\ " "%char = " "%char /\ no_double t.
Proof.
  intros t.
  destruct (plain_text_spaced "<p> LPA   163/2023 <br> Pending </p>")
    as (A & B & C).
  split; [exact A|]. split; [|exact C].
  apply (B " "%char); [vm_compute; tauto | reflexivity].
Defined.

(** * Nested tables *)

Lemma node_ind_all (P : node -> Prop) :
  (forall s, P (NavigableString s)) ->
  (forall name attrs cs, Forall P cs -> P (Tag name attrs cs)) ->
  forall n, P n.
Proof.
  intros Hs Ht. fix IH 1. intros [s|name attrs cs]; [apply Hs|].
  apply Ht. induction cs as [|c cs IHcs]; constructor; [apply IH|exact IHcs].
Qed.

(** In the document order a node is followed by the nodes below it. *)
Lemma below_split (cs : list node) (n : node) :
  Forall (fun c => In n (descendants c) ->
                   exists p q, descendants c = p ++ n :: descendants n ++ q) cs ->
  In n (flat_map (fun c => c :: descendants c) cs) ->
  exists p q,
    flat_map (fun c => c :: descendants c) cs = p ++ n :: descendants n ++ q.
Proof.
  induction cs as [|c cs IH]; intros F H; [destruct H|].
  inversion F as [|? ? Fc Fcs]; subst. cbn [flat_map] in *.
  apply in_app_or in H. destruct H as [[->|H]|H].
  - exists [], (flat_map (fun c => c :: descendants c) cs). reflexivity.
  - destruct (Fc H) as (p & q & E).
    exists (c :: p), (q ++ flat_map (fun c => c :: descendants c) cs).
    rewrite E. cbn [app]. f_equal. rewrite <- app_assoc. cbn [app].
    now rewrite <- app_assoc.
  - destruct (IH Fcs H) as (p & q & E).
    exists ((c :: descendants c) ++ p), q. now rewrite E, <- app_assoc.
Qed.

Lemma descendants_split (m n : node) :
  In n (descendants m) ->
  exists p q, descendants m = p ++ n :: descendants n ++ q.
Proof.
  revert m. apply (node_ind_all (fun m => In n (descendants m) -> _)).
  - intros s [].
  - intros name attrs cs F H. exact (below_split cs n F H).
Qed.

Lemma soup_descendants_split (soup : list node) (n : node) :
  In n (soup_descendants soup) ->
  exists p q, soup_descendants soup = p ++ n :: descendants n ++ q.
Proof.
  apply below_split. apply Forall_forall. intros c _.
  apply descendants_split.
Qed.

Lemma table_not_row (n : node) :
  is_tag ["table" : text] n = true -> is_tag ["tr" : text] n = false.
Proof.
  destruct n as [s|name attrs cs]; [discriminate|]. simpl.
  rewrite !orb_false_r. intros H. apply text_eqb_eq in H. now subst name.
Qed.

Lemma filter_split {A} (f : A -> bool) (p : list A) (x : A) (m q : list A) :
  filter f (p ++ x :: m ++ q)
  = filter f p ++ filter f [x] ++ filter f m ++ filter f q.
Proof.
  rewrite filter_app. f_equal.
  change (x :: m ++ q) with ([x] ++ m ++ q). now rewrite !filter_app.
Qed.

(** X14 -- The rows of a table that lies within another table of the
    document, directly or deeper, are extracted twice by the table
    strategy: once among the rows of the outer table and once more as
    rows of the inner table. *)
Theorem nested_table_twice (soup : list node) (outer inner : node) :
  is_tag ["table" : text] outer = true ->
  is_tag ["table" : text] inner = true ->
  In outer (soup_descendants soup) ->
  In inner (descendants outer) ->
  exists a b c,
    table_cases soup
    = a ++ rows_of_table inner ++ b ++ rows_of_table inner ++ c.
Proof.
  intros To Ti Ho Hi.
  destruct (soup_descendants_split soup outer Ho) as (p & q & Es).
  destruct (descendants_split outer inner Hi) as (u & v & Eo).
  pose (rows := fun l => flat_map
                  (fun row =>
                     let cells := find_all ["td" : text; "th" : text] row in
                     if 3 <=? List.length cells
                     then keep (_extract_case_from_row cells)
                     else [])
                  (filter (is_tag ["tr" : text]) l)).
  assert (Ro : rows_of_table outer = rows u ++ rows_of_table inner ++ rows v).
  { unfold rows_of_table, find_all. rewrite Eo, filter_split.
    cbn [filter]. rewrite (table_not_row inner Ti).
    rewrite !flat_map_app. reflexivity. }
  change (table_cases soup)
    with (flat_map rows_of_table
            (filter (is_tag ["table" : text]) (soup_descendants soup))).
  rewrite Es, filter_split. cbn [filter]. rewrite To.
  rewrite Eo, filter_split. cbn [filter]. rewrite Ti.
  rewrite !flat_map_app. cbn [flat_map]. rewrite Ro, !app_nil_r.
  exists (flat_map rows_of_table (filter (is_tag ["table" : text]) p) ++ rows u),
         (rows v
          ++ flat_map rows_of_table (filter (is_tag ["table" : text]) u)),
         (flat_map rows_of_table
            (filter (is_tag ["table" : text]) (descendants inner))
          ++ flat_map rows_of_table (filter (is_tag ["table" : text]) v)
          ++ flat_map rows_of_table (filter (is_tag ["table" : text]) q)).
  now rewrite <- !app_assoc.
Qed.

Lemma nested_table_twice_witness :
  exists a b c,
    table_cases layout_soup
    = a ++ rows_of_table results_table ++ b ++ rows_of_table results_table ++ c.
Proof.
  apply (nested_table_twice layout_soup layout_table results_table).
  - reflexivity.
  - reflexivity.
  - simpl. tauto.
  - simpl. tauto.
Defined.

(** * Which case numbers the parser can read *)

Lemma match_generic_some (pats : list (Re.regex * (nat * nat * nat)))
  (s : text) (g : Re.regex * (nat * nat * nat)) :
  In g pats -> Re.re_match (Re.icase (fst g)) s <> None ->
  match_generic pats s <> None.
Proof.
  induction pats as [|[pattern [[g1 g2] g3]] pats IH]; intros Hin Hm;
    [destruct Hin|].
  simpl. destruct (Re.re_match (Re.icase pattern) s) eqn:E; [discriminate|].
  destruct Hin as [<-|Hin]; [simpl in Hm; congruence|]. now apply IH.
Qed.

Lemma parse_generic_some (s : text) (g : Re.regex * (nat * nat * nat)) :
  In g patterns -> Re.re_match (Re.icase (fst g)) s <> None ->
  _parse_case_number s <> None.
Proof.
  intros Hin Hm. unfold _parse_case_number.
  destruct (match_known case_types s); [discriminate|].
  exact (match_generic_some _ _ _ Hin Hm).
Qed.

(** Put a match together, item by item. *)
Ltac rebuild :=
  repeat (eapply ReMore.items_cons_intro;
          [ apply ReMore.rep_complete;
            [ assumption
            | lia
            | first [ discriminate
                    | let h := fresh "h" in
                      let E := fresh "E" in
                      intros h E; injection E as <-; auto ] ]
          | ]).

Lemma scan_match_parses (pattern : Re.regex) (t : text) (m : list text * text) :
  In pattern case_patterns ->
  In m (Re.match_items (Re.icase pattern) t) ->
  _parse_case_number (Re.group0 m) <> None.
Proof.
  intros Hp H. destruct m as [ps rest]. unfold case_patterns in Hp.
  each_member;
    cbn [Re.icase map Re.icase_item Re.plus Re.lit Re.times Re.one] in H;
    peel H; unfold Re.group0; cbn [fst List.concat];
    repeat match goal with
           | H : _ /\ _ |- _ => destruct H
           end.
  - apply (parse_generic_some _ (nth 0 patterns ([], (0, 0, 0))));
      [simpl; tauto|].
    match goal with
    | |- Re.re_match ?r ?s <> None =>
        destruct (ReFacts.in_hd_error (Re.match_items r s)
                    ([x; x0; x1; x2; x3; []], [])) as [b Hb];
        [|unfold Re.re_match; congruence]
    end.
    cbn [nth fst Re.icase map Re.icase_item Re.plus Re.star Re.lit Re.times
         Re.one].
    rebuild.
    eapply ReMore.items_cons_intro; now left.
  - apply (parse_generic_some _ (nth 1 patterns ([], (0, 0, 0))));
      [simpl; tauto|].
    match goal with
    | |- Re.re_match ?r ?s <> None =>
        destruct (ReFacts.in_hd_error (Re.match_items r s)
                    ([x; x0; x1; x2; x3; x4; x5; x6; []], [])) as [b Hb];
        [|unfold Re.re_match; congruence]
    end.
    cbn [nth fst Re.icase map Re.icase_item Re.plus Re.star Re.lit Re.times
         Re.one].
    rebuild.
    eapply ReMore.items_cons_intro; now left.
  - apply (parse_generic_some _ (nth 2 patterns ([], (0, 0, 0))));
      [simpl; tauto|].
    match goal with
    | |- Re.re_match ?r ?s <> None =>
        destruct (ReFacts.in_hd_error (Re.match_items r s)
                    ([x; x0; x1; x2; x3; []], [])) as [b Hb];
        [|unfold Re.re_match; congruence]
    end.
    cbn [nth fst Re.icase map Re.icase_item Re.plus Re.star Re.lit Re.times
         Re.one].
    rebuild.
    eapply ReMore.items_cons_intro; now left.
Qed.

(** X15 -- Every case number the free-text scan emits is one the
    case-number parser can read. *)
Theorem scanned_numbers_parse (html_content : text) (r : CaseRecord) :
  In r (_extract_from_text html_content) ->
  _parse_case_number (case_number r) <> None.
Proof.
  unfold _extract_from_text. intros H.
  apply in_flat_map in H. destruct H as (pattern & Hp & H).
  apply in_map_iff in H. destruct H as (x & <- & H).
  apply ReFacts.findall_sound in H. destruct H as (t & m & Hm & ->).
  apply ReFacts.hd_error_in in Hm.
  destruct (scan_match_shape pattern t m Hp Hm) as (l & w & S).
  cbn [case_number text_case]. rewrite (scanned_strip _ _ _ S).
  exact (scan_match_parses pattern t m Hp Hm).
Qed.

Lemma scanned_numbers_parse_witness :
  _parse_case_number (case_number (text_case "LPA 163 of 2023")) <> None.
Proof.
  apply (scanned_numbers_parse "<p>see LPA 163 of 2023, decided</p>").
  vm_compute. now left.
Defined.

Lemma no_paren_in (p : Re.cclass) (x : text) :
  p "("%char = false -> forallb p x = true -> ~ In "("%char x.
Proof.
  intros Hp Hall Hin. rewrite forallb_forall in Hall.
  specialize (Hall _ Hin). congruence.
Qed.

(** X16 -- A case number with a parenthesis is parsed only through
    one of the known case types: the alternative patterns read letters
    and dots only, so a type such as "A.B.(C)" that is not in the list is
    not parsed. *)
Theorem parenthesis_needs_known_type (case_number : text)
  (info : ParsedCaseNumber) :
  In "("%char case_number ->
  _parse_case_number case_number = Some info ->
  In (pc_case_type info) case_types.
Proof.
  intros Hparen. unfold _parse_case_number.
  destruct (match_known case_types case_number) as [i|] eqn:K.
  - intros [= <-]. apply match_known_sound in K.
    destruct K as (t & m & Ht & _ & ->). exact Ht.
  - intros G. exfalso. apply match_generic_sound in G.
    destruct G as (pattern & g1 & g2 & g3 & m & Hin & Hm & _).
    apply ReFacts.hd_error_in in Hm. destruct m as [ps rest].
    unfold patterns in Hin.
    destruct Hin as [Hin|[Hin|[Hin|[]]]]; injection Hin as <- <- <- <-;
      cbn [Re.icase map Re.icase_item Re.star Re.plus Re.lit Re.times Re.one]
        in Hm;
      peel_all Hm;
      repeat match goal with
             | H : _ /\ _ |- _ => destruct H
             end;
      subst;
      repeat (apply in_app_or in Hparen; destruct Hparen as [Hparen|Hparen]);
      try match goal with
          | Hin : In "("%char ?x, Hall : forallb ?p ?x = true |- _ =>
              apply (no_paren_in p x); [reflexivity | exact Hall | exact Hin]
          end;
      try (destruct Hparen; fail);
      repeat match goal with
             | H : _ \/ _ |- _ => destruct H
             end;
      subst; simpl in Hparen;
      try (destruct Hparen as [Hparen|Hparen];
           [discriminate Hparen | destruct Hparen]);
      try (destruct Hparen).
Qed.

Lemma parenthesis_needs_known_type_witness :
  In (pc_case_type {| pc_case_type := "C.M.(M)"; pc_number := "123";
                      pc_year := "2023" |}) case_types
  /\ _parse_case_number "A.B.(C) 123/2023" = None.
Proof.
  split; [|reflexivity].
  apply (parenthesis_needs_known_type "c.m.(m) 123/2023").
  - vm_compute. tauto.
  - vm_compute. reflexivity.
Defined.

(** * Dates with a year of four digits *)

(** X17 -- [_parse_date] returns the date the first format of its list
    that parses the stripped input reads, the year written as a decimal
    number and the month and the day with two digits; when the year is
    1000 or later the result has the form YYYY-MM-DD and is read back by
    %Y-%m-%d as the same date; null and empty input, and input that no
    format parses, give null. *)
Theorem parse_date_first_format :
  (forall (s : text) pre fmt post d,
      s <> [] ->
      date_formats = pre ++ fmt :: post ->
      (forall f, In f pre -> strptime (strip s) f = None) ->
      strptime (strip s) fmt = Some d ->
      exists r,
        _parse_date (Some s) = Some r
        /\ r = year_text (year d) ++ ("-" : text) ++ pad2 (month d)
               ++ ("-" : text) ++ pad2 (day d)
        /\ ((1000 <= year d)%N ->
            is_iso_date r = true
            /\ strptime r [DY; Sep "-"; Dm; Sep "-"; Dd] = Some d))
  /\ _parse_date None = None
  /\ _parse_date (Some []) = None
  /\ (forall s : text,
         (forall f, In f date_formats -> strptime (strip s) f = None) ->
         _parse_date (Some s) = None).
Proof.
  split; [|split; [reflexivity|split; [reflexivity|]]].
  - intros s pre fmt post d Hs E Hpre Hfmt.
    exists (strftime d). split; [|split; [reflexivity|]].
    + destruct s as [|c s]; [congruence|]. unfold _parse_date. rewrite E.
      now apply try_formats_first.
    + intros Hy. split; [now apply strftime_iso|].
      apply strptime_strftime; [|exact Hy].
      exact (strptime_valid _ _ _ Hfmt).
  - intros s H. destruct s as [|c s]; [reflexivity|].
    unfold _parse_date. now apply try_formats_none.
Qed.

Lemma parse_date_first_format_witness :
  exists r,
    _parse_date (Some (" 15-03-2023 " : text)) = Some r
    /\ r = ("2023-03-15" : text)
    /\ is_iso_date r = true
    /\ strptime r [DY; Sep "-"; Dm; Sep "-"; Dd]
       = Some {| year := 2023; month := 3; day := 15 |}.
Proof.
  destruct parse_date_first_format as (Hfirst & _).
  destruct (Hfirst (" 15-03-2023 " : text)
              [[Dd; Sep "/"; Dm; Sep "/"; DY]]
              [Dd; Sep "-"; Dm; Sep "-"; DY]
              [[DY; Sep "-"; Dm; Sep "-"; Dd];
               [Dd; Sep "/"; Dm; Sep "/"; Dy]; [Dd; Sep "-"; Dm; Sep "-"; Dy];
               [DY; Sep "/"; Dm; Sep "/"; Dd]]
              {| year := 2023; month := 3; day := 15 |})
    as (r & Hr & Er & Hiso).
  - discriminate.
  - reflexivity.
  - intros f Hf. each_member; vm_compute; reflexivity.
  - vm_compute. reflexivity.
  - exists r. split; [exact Hr|]. split; [rewrite Er; vm_compute; reflexivity|].
    apply Hiso. vm_compute. discriminate.
Defined.

(** X18 -- On a result of the form YYYY-MM-DD the normalizer is
    idempotent: such a result normalizes to itself. *)
Theorem parse_date_iso_fixed (x : option text) (r : text) :
  _parse_date x = Some r -> is_iso_date r = true ->
  _parse_date (Some r) = Some r.
Proof.
  intros H Hiso. destruct (parse_date_result _ _ H) as (d & V & ->).
  pose proof (iso_year d Hiso) as Hy.
  unfold _parse_date.
  assert (N : exists c s, strftime d = c :: s).
  { destruct (strftime d) eqn:E; [discriminate Hiso|]. now eexists; eexists. }
  destruct N as (c & s & N). rewrite N, <- N.
  now apply strftime_reparses.
Qed.

Lemma parse_date_iso_fixed_witness :
  _parse_date (Some ("2023-03-15" : text)) = Some ("2023-03-15" : text).
Proof.
  apply (parse_date_iso_fixed (Some ("15/03/2023" : text))).
  - vm_compute. reflexivity.
  - reflexivity.
Defined.
